(** * Streamer-Sales: the streaming decoder and the prompt assembler

    A shallow embedding of [src/web/pages/selling_page.py]:
    [combine_history] (prompt assembly from the chat history) and
    [generate_interactive] (the streaming decode loop), followed by the
    properties of the specification that concern them.

    Python integers are [Z], token sequences are [list Z], texts are
    [string], scores are [Q] (every finite floating-point score is a
    rational and is compared exactly), Python exceptions are values of
    [exception] carried by [result]. *)

From Stdlib Require Import ZArith QArith String Ascii List Bool Lia.
Import ListNotations.

(** ** Exceptions and fallible computations *)

(** The Python exception classes the embedded code can raise. *)
Inductive exception : Set :=
| TypeError
| AttributeError
| ValueError
| IndexError
| RuntimeError.

Inductive result (A : Type) : Type :=
| Ok (a : A)
| Raise (e : exception).

Arguments Ok {A} a.
Arguments Raise {A} e.

Definition bind {A B : Type} (c : result A) (k : A -> result B) : result B :=
  match c with
  | Ok a => k a
  | Raise e => Raise e
  end.

Notation "x <- c ;; k" := (bind c (fun x => k))
  (at level 61, c at next level, right associativity).
Notation "' pat <- c ;; k" := (bind c (fun x => match x with pat => k end))
  (at level 61, pat pattern, c at next level, right associativity).

(** ** Prompt assembly *)

Module Prompt.

Local Open Scope string_scope.

(** The line feed written [\n] in the Python literals. *)
Definition nl : string := String "010"%char EmptyString.

(** [template.format(field=value)] for a template whose only replacement
    field is [{field}]: the template is copied and every occurrence of
    the field is replaced by [value], which is not scanned again.
    [skip] counts the characters of a field still to be dropped. *)
Fixpoint format_from (skip : nat) (field value template : string) : string :=
  match template with
  | EmptyString => EmptyString
  | String c rest =>
      match skip with
      | S n => format_from n field value rest
      | O =>
          if String.prefix ("{" ++ field ++ "}") template
          then value ++ format_from (S (String.length field)) field value rest
          else String c (format_from O field value rest)
      end
  end.

Definition format (template field value : string) : string :=
  format_from O field value template.

Definition user_prompt : string :=
  "<|im_start|>user" ++ nl ++ "{user}<|im_end|>" ++ nl.

Definition robot_prompt : string :=
  "<|im_start|>assistant" ++ nl ++ "{robot}<|im_end|>" ++ nl.

(** The backslash at the end of the first source line joins the two lines
    of the literal; the indentation of the second line stays in it. *)
Definition cur_query_prompt : string :=
  "<|im_start|>user" ++ nl ++ "{user}<|im_end|>" ++ nl
  ++ "    <|im_start|>assistant" ++ nl.

(** An entry of [st.session_state.messages]; the avatar is not read here. *)
Record message : Set := Message { role : string; content : string }.

(** The body of [for message in messages], threading [total_prompt]. *)
Fixpoint add_history (total_prompt : string) (messages : list message)
  : result string :=
  match messages with
  | [] => Ok total_prompt
  | m :: rest =>
      cur_prompt <-
        (if (role m =? "user")%string
         then Ok (format user_prompt "user" (content m))
         else if (role m =? "robot")%string
              then Ok (format robot_prompt "robot" (content m))
              else Raise RuntimeError) ;;
      add_history (total_prompt ++ cur_prompt) rest
  end.

(** [combine_history(prompt, meta_instruction, with_history)]; the chat
    history it reads from the session state is the argument [messages]. *)
Definition combine_history (messages : list message)
    (prompt meta_instruction : string) (with_history : bool) : result string :=
  let total_prompt :=
    "<s><|im_start|>system" ++ nl ++ meta_instruction ++ "<|im_end|>" ++ nl in
  total_prompt <-
    (if with_history then add_history total_prompt messages
     else Ok total_prompt) ;;
  Ok (total_prompt ++ format cur_query_prompt "user" prompt).

(** *** What the prompt is made of *)

Definition system_header (meta_instruction : string) : string :=
  "<s><|im_start|>system" ++ nl ++ meta_instruction ++ "<|im_end|>" ++ nl.

Definition user_block (text : string) : string :=
  "<|im_start|>user" ++ nl ++ text ++ "<|im_end|>" ++ nl.

Definition robot_block (text : string) : string :=
  "<|im_start|>assistant" ++ nl ++ text ++ "<|im_end|>" ++ nl.

Definition query_block (text : string) : string :=
  "<|im_start|>user" ++ nl ++ text ++ "<|im_end|>" ++ nl
  ++ "    <|im_start|>assistant" ++ nl.

Definition known_role (m : message) : bool :=
  ((role m =? "user") || (role m =? "robot"))%string.

Definition message_block (m : message) : string :=
  if (role m =? "user")%string then user_block (content m)
  else robot_block (content m).

Definition history_blocks (messages : list message) : string :=
  fold_right (fun m blocks => message_block m ++ blocks) "" messages.

End Prompt.

(** ** The streaming decoder *)

Module Decoder.

Local Open Scope list_scope.
Local Open Scope Z_scope.

(** *** Configuration *)

(** [generation_config.eos_token_id] as the configuration object holds it:
    [None], one integer, or a list of integers. *)
Inductive eos_value : Set :=
| EosNone
| EosInt (i : Z)
| EosList (l : list Z).

(** The attributes of the generation configuration that
    [generate_interactive] reads. [None] is Python's [None]. *)
Record GenerationConfig : Set := {
  max_length : option Z;
  max_new_tokens : option Z;
  do_sample : bool;
  bos_token_id : option Z;
  eos_token_id : eos_value
}.

(** The keyword arguments of the call that name an attribute read here.
    The outer [option] tells whether the key is present; a present key
    may carry [None]. *)
Record kwargs : Set := {
  kw_max_length : option (option Z);
  kw_max_new_tokens : option (option Z);
  kw_do_sample : option bool
}.

(** [kwargs.get(key)]: [None] for an absent key and for a key bound to
    [None] alike. *)
Definition kwargs_get {A : Type} (k : option (option A)) : option A :=
  match k with
  | Some v => v
  | None => None
  end.

Definition override {A : Type} (k : option A) (old : A) : A :=
  match k with
  | Some v => v
  | None => old
  end.

(** [generation_config.update] applied to the keyword arguments, from the
    transformers library:
    every key that names an attribute of the configuration replaces it.
    The validation the library runs on the result is not embedded; the
    properties below are about calls in which it passes. *)
Definition update (c : GenerationConfig) (kw : kwargs) : GenerationConfig :=
  {| max_length := override (kw_max_length kw) (max_length c);
     max_new_tokens := override (kw_max_new_tokens kw) (max_new_tokens c);
     do_sample := override (kw_do_sample kw) (do_sample c);
     bos_token_id := bos_token_id c;
     eos_token_id := eos_token_id c |}.

Definition set_max_length (c : GenerationConfig) (m : Z) : GenerationConfig :=
  {| max_length := Some m;
     max_new_tokens := max_new_tokens c;
     do_sample := do_sample c;
     bos_token_id := bos_token_id c;
     eos_token_id := eos_token_id c |}.

(** The end-of-sequence normalisation: an integer becomes a one-element
    list, and the additional id is appended with [list.append], which
    [None] does not have. The result is [None] or a list. *)
Definition normalise_eos (e : eos_value) (additional_eos_token_id : option Z)
  : result (option (list Z)) :=
  let eos :=
    match e with
    | EosNone => None
    | EosInt i => Some [i]
    | EosList l => Some l
    end in
  match additional_eos_token_id with
  | None => Ok eos
  | Some a =>
      match eos with
      | None => Raise AttributeError
      | Some l => Ok (Some (l ++ [a]))
      end
  end.

(** [list.append] changes the list it is called on. When the
    configuration holds a list of end-of-sequence ids, [eos_token_id]
    is that very list, so the configuration holds the extended list
    from then on; an integer was wrapped into a new list, and the
    configuration keeps the integer. *)
Definition appended_eos (c : GenerationConfig)
    (additional_eos_token_id : option Z) : GenerationConfig :=
  match eos_token_id c, additional_eos_token_id with
  | EosList l, Some a =>
      {| max_length := max_length c;
         max_new_tokens := max_new_tokens c;
         do_sample := do_sample c;
         bos_token_id := bos_token_id c;
         eos_token_id := EosList (l ++ [a]) |}
  | _, _ => c
  end.

(** The three diagnostics of the length resolution, none of which
    interrupts the run. *)
Inductive diagnostic : Set :=
| DefaultMaxLengthDeprecated
| BothLengthsSet
| InputNotShorterThanMaxLength.

Definition is_some {A : Type} (o : option A) : bool :=
  match o with Some _ => true | None => false end.

Definition is_none {A : Type} (o : option A) : bool :=
  match o with Some _ => false | None => true end.

(** The resolution of the absolute length cap. [kw] are the keyword
    arguments, [c] the configuration after [update]. The comparison
    [input_ids_seq_length >= generation_config.max_length] of an integer
    with [None] raises [TypeError]. *)
Definition resolve_max_length (kw : kwargs) (c : GenerationConfig)
    (input_ids_seq_length : Z)
  : result (GenerationConfig * list diagnostic) :=
  let has_default_max_length :=
    is_none (kwargs_get (kw_max_length kw)) && is_some (max_length c) in
  let '(c, diags) :=
    if has_default_max_length && is_none (max_new_tokens c)
    then (c, [DefaultMaxLengthDeprecated])
    else
      match max_new_tokens c with
      | Some n =>
          (set_max_length c (n + input_ids_seq_length),
           if negb has_default_max_length then [BothLengthsSet] else [])
      | None => (c, [])
      end in
  match max_length c with
  | None => Raise TypeError
  | Some m =>
      Ok (c, diags ++
             (if input_ids_seq_length >=? m
              then [InputNotShorterThanMaxLength] else []))
  end.

(** *** Token selection *)

(** [torch.argmax] along the vocabulary, as the library documents it:
    when several values are maximal, the index of the first one.
    [argmax_from best v i l] scans [l], whose first element has index
    [i], with [best] the index of the largest value [v] so far. *)
Fixpoint argmax_from (best : nat) (v : Q) (i : nat) (l : list Q) : nat :=
  match l with
  | [] => best
  | x :: rest =>
      if Qle_bool x v
      then argmax_from best v (S i) rest
      else argmax_from i x (S i) rest
  end.

(** An empty vocabulary has no arg-max: torch raises [IndexError]. *)
Definition argmax (probs : list Q) : result nat :=
  match probs with
  | [] => Raise IndexError
  | x :: rest => Ok (argmax_from 0 x 1 rest)
  end.

(** *** Stopping criteria *)

(** A stopping criterion is called with the token sequence and
    [scores], which the loop leaves at [None]. *)
Definition criterion : Type := list Z -> bool.

(** Modelled from the spec: the length-based stopping predicate that
    [model._get_stopping_criteria] (transformers, not under src)
    builds from the resolved [max_length]: total length at least
    [max_length]. *)
Definition MaxLengthCriteria (m : Z) : criterion :=
  fun input_ids => Z.of_nat (length input_ids) >=? m.

(** Modelled from the spec: [model._get_stopping_criteria] (transformers,
    not under src) puts the length criterion of the configuration in
    front of the registered criteria. The library may refuse a
    registered criterion; the properties below are about calls in which
    it does not. *)
Definition get_stopping_criteria (c : GenerationConfig)
    (stopping_criteria : list criterion) : list criterion :=
  match max_length c with
  | Some m => [MaxLengthCriteria m]
  | None => []
  end ++ stopping_criteria.

(** Modelled from the spec: calling a [StoppingCriteriaList]
    (transformers) is the logical OR of its members. *)
Definition call_criteria (cs : list criterion) (input_ids : list Z) : bool :=
  existsb (fun c => c input_ids) cs.

(** *** End-of-sequence handling in the loop *)

(** Python's [min] over a sequence of booleans (one-element boolean
    tensors here): [ValueError] on an empty sequence, otherwise the
    first of the smallest elements, [False] being the smaller one. *)
Definition py_min (bs : list bool) : result bool :=
  match bs with
  | [] => Raise ValueError
  | b :: rest =>
      Ok (fold_left (fun m x => if negb x && m then x else m) rest b)
  end.

(** [for x in eos_token_id]: iterating [None] raises [TypeError]. *)
Definition iterate (eos : option (list Z)) : result (list Z) :=
  match eos with
  | None => Raise TypeError
  | Some l => Ok l
  end.

(** [l[-1]]: [IndexError] on the empty list. *)
Definition last_item (l : list Z) : result Z :=
  match l with
  | [] => Raise IndexError
  | x :: rest => Ok (last rest x)
  end.

(** The stripping loop: for each end-of-sequence id in turn, drop the
    last output token when it equals that id. *)
Fixpoint strip_eos (eos : list Z) (output_token_ids : list Z)
  : result (list Z) :=
  match eos with
  | [] => Ok output_token_ids
  | each_eos_token_id :: rest =>
      t <- last_item output_token_ids ;;
      strip_eos rest
        (if t =? each_eos_token_id
         then removelast output_token_ids
         else output_token_ids)
  end.

Section Loop.

(** The model's continuation state ([model_kwargs]) and the state of the
    random source that [torch.multinomial] draws from. *)
Variables MK RNG : Type.

(** [nn.functional.softmax] and [torch.multinomial(probs, 1)]. *)
Variable softmax : list Q -> list Q.
Variable multinomial : RNG -> list Q -> Z * RNG.

(** A logits processor or warper: token sequence and scores to scores. *)
Definition processor : Type := list Z -> list Q -> list Q.

(** The model capability. [forward] stands for
    [prepare_inputs_for_generation], the forward pass, the slice
    [logits[:, -1, :]] and [_update_model_kwargs_for_generation].
    [get_logits_processor] is [model._get_logits_processor] with the
    configuration, the prompt length, the prompt ids and the caller's
    processors; [prefix_allowed_tokens_fn] reaches nothing else and is
    part of it. *)
Record Model : Type := {
  generation_config : GenerationConfig;
  forward : MK -> list Z -> list Q * MK;
  get_logits_processor :
    GenerationConfig -> Z -> list Z -> list processor -> processor;
  get_logits_warper : GenerationConfig -> processor
}.

(** The tokenizer capability: the ids of one prompt, and decoding. *)
Record Tokenizer : Type := {
  encode : string -> list Z;
  decode : list Z -> string
}.

(** What the code before [while True] leaves for the loop. *)
Record setup : Type := {
  config : GenerationConfig;
  diagnostics : list diagnostic;
  input_length : nat;
  eos : option (list Z);
  logits_processor : processor;
  logits_warper : processor;
  stopping_criteria : list criterion
}.

(** The variables the loop updates. The batch holds one sequence, so
    [unfinished_sequences] is one integer, 1 or 0. *)
Record state : Type := {
  input_ids : list Z;
  model_kwargs : MK;
  unfinished_sequences : Z;
  rng : RNG
}.

(** The token selection: one draw when sampling, the arg-max otherwise. *)
Definition next_tokens (sample : bool) (g : RNG) (probs : list Q)
  : result (Z * RNG) :=
  if sample then Ok (multinomial g probs)
  else i <- argmax probs ;; Ok (Z.of_nat i, g).

Variable model : Model.
Variable tokenizer : Tokenizer.

(** The statements of [generate_interactive] before the loop.
    [model_kwargs0] is what [update] hands back, the keyword arguments
    that name no attribute of the configuration. *)
Definition prepare (prompt : string)
    (generation_config_arg : option GenerationConfig)
    (logits_processor_arg : option (list processor))
    (stopping_criteria_arg : option (list criterion))
    (additional_eos_token_id : option Z)
    (kw : kwargs) (model_kwargs0 : MK) (g : RNG)
  : result (setup * state) :=
  let ids := encode tokenizer prompt in
  let input_ids_seq_length := Z.of_nat (length ids) in
  let c := match generation_config_arg with
           | Some c => c
           | None => generation_config model
           end in
  let c := update c kw in
  eos <- normalise_eos (eos_token_id c) additional_eos_token_id ;;
  let c := appended_eos c additional_eos_token_id in
  '(c, diags) <- resolve_max_length kw c input_ids_seq_length ;;
  let lp := match logits_processor_arg with Some l => l | None => [] end in
  let sc := match stopping_criteria_arg with Some l => l | None => [] end in
  Ok ({| config := c;
         diagnostics := diags;
         input_length := length ids;
         eos := eos;
         logits_processor :=
           get_logits_processor model c input_ids_seq_length ids lp;
         logits_warper := get_logits_warper model c;
         stopping_criteria := get_stopping_criteria c sc |},
      {| input_ids := ids;
         model_kwargs := model_kwargs0;
         unfinished_sequences := 1;
         rng := g |}).

(** One pass through the loop body up to [yield response]. *)
Definition step (s : setup) (st : state) : result (string * state) :=
  let '(next_token_logits, mk) := forward model (model_kwargs st) (input_ids st) in
  let next_token_scores := logits_processor s (input_ids st) next_token_logits in
  let next_token_scores := logits_warper s (input_ids st) next_token_scores in
  let probs := softmax next_token_scores in
  '(tok, g) <- next_tokens (do_sample (config s)) (rng st) probs ;;
  let ids := input_ids st ++ [tok] in
  eos_list <- iterate (eos s) ;;
  differs <- py_min (map (fun i => negb (tok =? i)) eos_list) ;;
  let unfinished := unfinished_sequences st * (if differs then 1 else 0) in
  let output_token_ids := skipn (input_length s) ids in
  output_token_ids <- strip_eos eos_list output_token_ids ;;
  Ok (decode tokenizer output_token_ids,
      {| input_ids := ids;
         model_kwargs := mk;
         unfinished_sequences := unfinished;
         rng := g |}).

(** The test after [yield]: [break] when it holds. *)
Definition finished (s : setup) (st : state) : bool :=
  (unfinished_sequences st =? 0) || call_criteria (stopping_criteria s) (input_ids st).

(** How a run stands: still in the loop, ended by [break], or ended by
    an exception. *)
Inductive status : Set :=
| RUNNING
| STOPPED
| FAILED (e : exception).

(** What a run has done: the responses it yielded in order, the number
    of forward passes, how it stands, and the token sequence after the
    last pass that yielded. *)
Record run : Type := {
  emissions : list string;
  forward_calls : nat;
  outcome : status;
  token_ids : list Z
}.

(** The loop [while True], driven for at most [fuel] passes; a run that
    is still in the loop after [fuel] passes is [RUNNING]. *)
Fixpoint loop (fuel : nat) (s : setup) (st : state) : run :=
  match fuel with
  | O => {| emissions := []; forward_calls := 0;
            outcome := RUNNING; token_ids := input_ids st |}
  | S fuel' =>
      match step s st with
      | Raise e => {| emissions := []; forward_calls := 1;
                      outcome := FAILED e; token_ids := input_ids st |}
      | Ok (response, st') =>
          if finished s st'
          then {| emissions := [response]; forward_calls := 1;
                  outcome := STOPPED; token_ids := input_ids st' |}
          else
            let r := loop fuel' s st' in
            {| emissions := response :: emissions r;
               forward_calls := S (forward_calls r);
               outcome := outcome r;
               token_ids := token_ids r |}
      end
  end.

(** [generate_interactive], pulled until it ends or [fuel] responses
    have been taken. *)
Definition generate_interactive (fuel : nat) (prompt : string)
    (generation_config_arg : option GenerationConfig)
    (logits_processor_arg : option (list processor))
    (stopping_criteria_arg : option (list criterion))
    (additional_eos_token_id : option Z)
    (kw : kwargs) (model_kwargs0 : MK) (g : RNG) : run :=
  match prepare prompt generation_config_arg logits_processor_arg
          stopping_criteria_arg additional_eos_token_id kw model_kwargs0 g with
  | Raise e => {| emissions := []; forward_calls := 0;
                  outcome := FAILED e;
                  token_ids := encode tokenizer prompt |}
  | Ok (s, st) => loop fuel s st
  end.

End Loop.

(** *** The words of the specification *)

(** Membership of a token in the configured end-of-sequence ids. *)
Definition is_eos (eos : list Z) (t : Z) : bool := existsb (Z.eqb t) eos.

(** Stripping a single trailing end-of-sequence token if present. *)
Definition strip_single (eos : list Z) (tokens : list Z) : list Z :=
  match tokens with
  | [] => []
  | x :: rest =>
      if is_eos eos (last rest x) then removelast tokens else tokens
  end.

(** The same loop state with another state of the random source. *)
Definition set_rng {MK RNG : Type} (st : state MK RNG) (g : RNG)
  : state MK RNG :=
  {| input_ids := input_ids MK RNG st;
     model_kwargs := model_kwargs MK RNG st;
     unfinished_sequences := unfinished_sequences MK RNG st;
     rng := g |}.

(** The end-of-sequence ids a run works with; none when the
    configuration has [None] there. *)
Definition eos_ids (e : option (list Z)) : list Z :=
  match e with
  | Some l => l
  | None => []
  end.

(** [a] is a prefix of [b]: [b] extends [a] or equals it. *)
Definition extends (a b : string) : Prop := exists s, b = (a ++ s)%string.

(** Each emission extends the one before and is at least as long. *)
Definition monotone_emissions (l : list string) : Prop :=
  forall k, (S k < length l)%nat ->
    extends (nth k l ""%string) (nth (S k) l ""%string) /\
    (String.length (nth k l ""%string)
     <= String.length (nth (S k) l ""%string))%nat.

End Decoder.

(** ** Small models and tokenizers to run the decoder on *)

Module Toy.

Import Decoder.
Local Open Scope list_scope.
Local Open Scope Z_scope.

(** Scores that single out token [t] in a vocabulary of [v] entries. *)
Definition one_hot (v : nat) (t : Z) : list Q :=
  map (fun i => if Z.of_nat i =? t then 1%Q else 0%Q) (seq 0 v).

(** A model over a vocabulary of eight tokens that, after a prompt of
    [p] tokens, prefers the tokens of [script] one after the other (and
    token 0 once the script is used up); it adds no processor or warper
    of its own. *)
Definition scripted (c : GenerationConfig) (p : nat) (script : list Z)
  : Model unit :=
  {| generation_config := c;
     forward := fun mk ids => (one_hot 8 (nth (length ids - p) script 0), mk);
     get_logits_processor := fun _ _ _ _ => fun _ scores => scores;
     get_logits_warper := fun _ => fun _ scores => scores |}.

(** A stand-in for softmax that keeps the scores as they are, and a
    stand-in for the categorical draw that reads the token off a
    counter. *)
Definition keep (scores : list Q) : list Q := scores.

Definition draw (g : nat) (probs : list Q) : Z * nat :=
  (Z.of_nat (g mod 8), S g).

Definition letter (t : Z) : string :=
  String (ascii_of_N (Z.to_N (97 + t))) EmptyString.

(** A tokenizer with one token per character: token [t] is the letter
    number [t] of the alphabet, and decoding concatenates the letters. *)
Definition letters : Tokenizer :=
  {| encode := fun s => map (fun a => Z.of_N (N_of_ascii a) - 97) (list_ascii_of_string s);
     decode := fun ids =>
       fold_right (fun t text => (letter t ++ text)%string) ""%string ids |}.

(** A tokenizer with a character that takes two tokens, 4 then 5: the
    pair decodes to [e], and a 4 that is not followed by 5 decodes to
    the replacement [?], as byte-fallback tokenizers do with the first
    bytes of a character. Encoding writes [e] as the pair, so decoding
    gives back the lower-case text that was encoded. *)
Fixpoint decode_pairs (ids : list Z) : string :=
  match ids with
  | [] => ""%string
  | x :: rest =>
      if x =? 4
      then match rest with
           | y :: rest' =>
               if y =? 5 then String "e"%char (decode_pairs rest')
               else String "?"%char (decode_pairs rest)
           | [] => "?"%string
           end
      else (letter x ++ decode_pairs rest)%string
  end.

Definition encode_pairs (s : string) : list Z :=
  flat_map (fun a => if (a =? "e")%char then [4; 5]
                     else [Z.of_N (N_of_ascii a) - 97])
           (list_ascii_of_string s).

Definition pairs : Tokenizer :=
  {| encode := encode_pairs; decode := decode_pairs |}.

(** The configuration of a model whose end-of-sequence id is 2, with
    greedy selection and a length cap of [m]. *)
Definition greedy (m : option Z) (n : option Z) : GenerationConfig :=
  {| max_length := m; max_new_tokens := n; do_sample := false;
     bos_token_id := Some 1; eos_token_id := EosInt 2 |}.

Definition no_kwargs : kwargs :=
  {| kw_max_length := None; kw_max_new_tokens := None; kw_do_sample := None |}.

(** A run of the scripted model on the prompt [prompt], as [get_response]
    starts it: no configuration argument, no processors, no criteria. *)
Definition run_scripted (tk : Tokenizer) (c : GenerationConfig)
    (script : list Z) (additional : option Z) (kw : kwargs)
    (fuel : nat) (prompt : string) : run :=
  generate_interactive unit nat keep draw
    (scripted c (length (encode tk prompt)) script) tk
    fuel prompt None None None additional kw tt O.

End Toy.

(** ** Conditions on runs *)

Module Runs.

Import Decoder.

(** The distributions the model gives are never empty, or the run
    samples (and does not call [argmax]). *)
Definition never_empty (MK : Type) (softmax : list Q -> list Q)
    (model : Model MK) (s : setup) : Prop :=
  do_sample (config s) = true
  \/ forall (mk : MK) (ids : list Z),
       softmax (logits_warper s ids
                  (logits_processor s ids (fst (forward MK model mk ids))))
       <> [].

End Runs.

(** ** The chat page *)

Module App.

Local Open Scope list_scope.

(** The exceptions of the page code: those of prompt assembly, of the
    decoder and of a missing attribute of the session state
    ([AttributeError]); [KeyError] for a missing keyword argument; and
    [UnboundLocalError] for reading [cur_response] before the loop has
    bound it. *)
Inductive error : Set :=
| Builtin (e : exception)
| KeyError
| UnboundLocalError.

(** The dataclass [GenerationConfig] of the page, with its defaults. *)
Record GenerationConfig : Set := {
  max_length : Z;
  top_p : Q;
  temperature : Q;
  do_sample : bool;
  repetition_penalty : Q
}.

Definition default_config : GenerationConfig :=
  {| max_length := 32768; top_p := 0.8; temperature := 0.8;
     do_sample := true; repetition_penalty := 1.005 |}.

(** [asdict(generation_config)] as keyword arguments of
    [generate_interactive]. All five keys name attributes of the
    model's configuration; [top_p], [temperature] and
    [repetition_penalty] are read by the model's warper and processor
    factories only. *)
Definition asdict (c : GenerationConfig) : Decoder.kwargs :=
  {| Decoder.kw_max_length := Some (Some (max_length c));
     Decoder.kw_max_new_tokens := None;
     Decoder.kw_do_sample := Some (do_sample c) |}.

(** An entry of [st.session_state.messages] as [get_response] appends
    it: role, content and avatar ([message.get("avatar")] allows an
    entry without one). *)
Record chat_entry : Set := {
  message : Prompt.message;
  avatar : option string
}.

Definition entry (role content avatar : string) : chat_entry :=
  {| message := Prompt.Message role content; avatar := Some avatar |}.

(** What the page writes to the chat area: a chat message with its
    markdown, and the markdown of the placeholder of the answer being
    generated. The widgets of the sidebar are not recorded. *)
Inductive ui : Set :=
| ChatMarkdown (role : string) (avatar : option string) (text : string)
| PlaceholderMarkdown (text : string).

(** The labels the buttons pass as [info], the value [button_msg] has
    when no message is pending, the pages, and the cursor appended to a
    text that is still being generated. *)
Definition clear_history : string := "清除对话历史".
Definition back_to_products : string := "返回商品页".
Definition no_button_msg : string := "x-x".
Definition main_page : string := "main_page.py".
Definition selling_page : string := "pages/selling_page.py".
Definition cursor : string := "▌".
Definition user_avator : string := "../assets/user.png".
Definition robot_avator : string := "../assets/logo.png".

(** The sentences of which the add-to-cart button passes one, chosen at
    random, as [info]. *)
Definition want_to_buy_list : list string :=
  [ "我打算买了。"; "我准备入手了。"; "我决定要买了。"; "我准备下单了。";
    "我将要购买这款产品。"; "我准备买下来了。"; "我准备将这个买下。";
    "我准备要购买了。"; "我决定买下它。"; "我准备将其买下。" ]%string.

(** How a call ends: it returns, raises, leaves the script through
    [st.switch_page], or is still inside a generation that has not
    ended within the passes it was driven for. *)
Inductive ending : Set :=
| Returned
| Raising (e : error)
| Switched (page : string)
| Unfinished.

Section Page.

Variables MK RNG : Type.
Variable softmax : list Q -> list Q.
Variable multinomial : RNG -> list Q -> Z * RNG.

(** The model keyword arguments [update] hands back for the keyword
    arguments of the page: none. *)
Variable no_model_kwargs : MK.

(** The attributes of [st.session_state] the page reads or writes;
    [None] is an attribute that is not set. *)
Record session : Type := {
  messages : option (list chat_entry);
  button_msg : option string;
  page_switch : option string;
  current_page : option string;
  first_input : option string;
  sales_info : option string;
  product_name : option string;
  image_path : option string;
  hightlight : option string;
  model : option (Decoder.Model MK);
  tokenizer : option Decoder.Tokenizer
}.

Definition set_messages (ss : session) (m : option (list chat_entry))
  : session :=
  {| messages := m; button_msg := button_msg ss;
     page_switch := page_switch ss; current_page := current_page ss;
     first_input := first_input ss; sales_info := sales_info ss;
     product_name := product_name ss; image_path := image_path ss;
     hightlight := hightlight ss; model := model ss;
     tokenizer := tokenizer ss |}.

Definition set_button_msg (ss : session) (b : option string) : session :=
  {| messages := messages ss; button_msg := b;
     page_switch := page_switch ss; current_page := current_page ss;
     first_input := first_input ss; sales_info := sales_info ss;
     product_name := product_name ss; image_path := image_path ss;
     hightlight := hightlight ss; model := model ss;
     tokenizer := tokenizer ss |}.

Definition set_page_switch (ss : session) (p : option string) : session :=
  {| messages := messages ss; button_msg := button_msg ss;
     page_switch := p; current_page := current_page ss;
     first_input := first_input ss; sales_info := sales_info ss;
     product_name := product_name ss; image_path := image_path ss;
     hightlight := hightlight ss; model := model ss;
     tokenizer := tokenizer ss |}.

Definition set_current_page (ss : session) (p : option string) : session :=
  {| messages := messages ss; button_msg := button_msg ss;
     page_switch := page_switch ss; current_page := p;
     first_input := first_input ss; sales_info := sales_info ss;
     product_name := product_name ss; image_path := image_path ss;
     hightlight := hightlight ss; model := model ss;
     tokenizer := tokenizer ss |}.

(** What a call leaves: the session state, what it wrote to the chat
    area, and how it ended. *)
Record reply : Type := {
  state : session;
  shown : list ui;
  ended : ending
}.

Definition raising (ss : session) (written : list ui) (e : exception)
  : reply :=
  {| state := ss; shown := written; ended := Raising (Builtin e) |}.

(** [on_btn_click]: reading [info] from the keyword arguments raises
    [KeyError] when the key is missing, and deleting an attribute that
    is not set raises [AttributeError]. *)
Definition on_btn_click (info : option string) (ss : session)
  : session * ending :=
  match info with
  | None => (ss, Raising KeyError)
  | Some info =>
      if (info =? clear_history)%string
      then match messages ss with
           | Some _ => (set_messages ss None, Returned)
           | None => (ss, Raising (Builtin AttributeError))
           end
      else if (info =? back_to_products)%string
           then (set_page_switch ss (Some main_page), Returned)
           else (set_button_msg ss (Some info), Returned)
  end.

(** [prepare_generation_config()]: the sidebar reads three attributes
    of the session state, and the configuration returned is fixed. *)
Definition prepare_generation_config (ss : session)
  : result GenerationConfig :=
  match product_name ss, image_path ss, hightlight ss with
  | Some _, Some _, Some _ =>
      Ok {| max_length := 32768; top_p := 0.8; temperature := 0.7;
            do_sample := do_sample default_config;
            repetition_penalty := repetition_penalty default_config |}
  | _, _, _ => Raise AttributeError
  end.

(** The body of [for cur_response in ...]: a response other than ["~"]
    is written to the placeholder with the cursor; every response is
    bound to [cur_response]. *)
Fixpoint stream (responses : list string) (written : list ui)
    (cur_response : option string) : list ui * option string :=
  match responses with
  | [] => (written, cur_response)
  | r :: rest =>
      if (r =? "~")%string
      then stream rest written (Some r)
      else stream rest
             (written ++ [PlaceholderMarkdown (r ++ cursor)%string])
             (Some r)
  end.

(** [get_response], with the generation driven for at most [fuel]
    passes and [g] the state of the random source when it starts. *)
Definition get_response (fuel : nat)
    (prompt meta_instruction user_avator robot_avator : string)
    (model : Decoder.Model MK) (tokenizer : Decoder.Tokenizer)
    (generation_config : GenerationConfig) (first_input : bool)
    (g : RNG) (ss : session) : reply :=
  match messages ss with
  | None => raising ss [] AttributeError
  | Some msgs =>
      match Prompt.combine_history (map message msgs) prompt
              meta_instruction true with
      | Raise e => raising ss [] e
      | Ok real_prompt =>
          let msgs :=
            if first_input then msgs
            else msgs ++ [entry "user" prompt user_avator] in
          let ss := set_messages ss (Some msgs) in
          let r := Decoder.generate_interactive MK RNG softmax multinomial
                     model tokenizer fuel real_prompt None None None
                     (Some 92542%Z) (asdict generation_config)
                     no_model_kwargs g in
          let '(written, cur_response) :=
            stream (Decoder.emissions r) [] None in
          match Decoder.outcome r with
          | Decoder.FAILED e => raising ss written e
          | Decoder.RUNNING =>
              {| state := ss; shown := written; ended := Unfinished |}
          | Decoder.STOPPED =>
              match cur_response with
              | None =>
                  {| state := ss; shown := written;
                     ended := Raising UnboundLocalError |}
              | Some cur_response =>
                  {| state :=
                       set_messages ss
                         (Some (msgs ++ [entry "robot" cur_response
                                           robot_avator]));
                     shown := written ++ [PlaceholderMarkdown cur_response];
                     ended := Returned |}
              end
          end
      end
  end.

(** The chat messages of the history as [main] displays them. *)
Definition show_history (msgs : list chat_entry) : list ui :=
  map (fun m => ChatMarkdown (Prompt.role (message m)) (avatar m)
                  (Prompt.content (message m))) msgs.

(** Python's truth value of [prompt]: [None] and the empty string are
    false. *)
Definition truthy (prompt : option string) : bool :=
  match prompt with
  | Some EmptyString => false
  | Some _ => true
  | None => false
  end.

(** The end of [main]: a prompt that is given is shown as a message of
    the user and answered. *)
Definition respond (fuel : nat) (meta_instruction : string)
    (generation_config : GenerationConfig) (prompt : option string)
    (g : RNG) (ss : session) (written : list ui) : reply :=
  if truthy prompt
  then
    let prompt := match prompt with Some p => p | None => EmptyString end in
    let written :=
      written ++ [ChatMarkdown "user" (Some user_avator) prompt] in
    match model ss, tokenizer ss with
    | Some m, Some t =>
        let r := get_response fuel prompt meta_instruction user_avator
                   robot_avator m t generation_config false g ss in
        {| state := state r; shown := written ++ shown r;
           ended := ended r |}
    | _, _ => raising ss written AttributeError
    end
  else {| state := ss; shown := written; ended := Returned |}.

(** The last part of [main]: choosing the prompt and answering it.
    [typed] is what [st.chat_input] returns. *)
Definition answer (fuel : nat) (meta_instruction : string)
    (generation_config : GenerationConfig) (typed : option string)
    (g : RNG) (ss : session) (written : list ui) : reply :=
  let ss := match button_msg ss with
            | Some _ => ss
            | None => set_button_msg ss (Some no_button_msg)
            end in
  let pending := match button_msg ss with
                 | Some b => b
                 | None => no_button_msg
                 end in
  if negb (pending =? no_button_msg)%string
  then respond fuel meta_instruction generation_config (Some pending) g
         (set_button_msg ss (Some no_button_msg)) written
  else respond fuel meta_instruction generation_config typed g ss written.

(** [main(meta_instruction)]. [g1] and [g2] are the states of the
    random source when the introduction and when the answer are
    generated. *)
Definition main (fuel : nat) (meta_instruction : string)
    (typed : option string) (g1 g2 : RNG) (ss : session) : reply :=
  match page_switch ss, current_page ss with
  | Some target, Some current =>
      if negb (target =? current)%string
      then {| state := ss; shown := []; ended := Switched target |}
      else
        match prepare_generation_config ss with
        | Raise e => raising ss [] e
        | Ok generation_config =>
            let msgs := match messages ss with
                        | Some msgs => msgs
                        | None => []
                        end in
            let ss := set_messages ss (Some msgs) in
            let written := show_history msgs in
            match msgs with
            | [] =>
                match first_input ss, model ss, tokenizer ss with
                | Some first, Some m, Some t =>
                    let r := get_response fuel first meta_instruction
                               user_avator robot_avator m t
                               generation_config true g1 ss in
                    match ended r with
                    | Returned =>
                        answer fuel meta_instruction generation_config
                          typed g2 (state r) (written ++ shown r)
                    | e => {| state := state r;
                              shown := written ++ shown r; ended := e |}
                    end
                | _, _, _ => raising ss written AttributeError
                end
            | _ :: _ =>
                answer fuel meta_instruction generation_config typed g2
                  ss written
            end
        end
  | _, _ => raising ss [] AttributeError
  end.

(** The statements of the module around the call of [main]. *)
Definition script (fuel : nat) (typed : option string) (g1 g2 : RNG)
    (ss : session) : reply :=
  let ss := set_current_page ss (Some selling_page) in
  let missing :=
    match model ss, sales_info ss with
    | Some _, Some info => (info =? "")%string
    | _, _ => true
    end in
  if missing
  then {| state := set_page_switch ss (Some main_page); shown := [];
          ended := Switched main_page |}
  else
    match sales_info ss with
    | Some info => main fuel info typed g1 g2 ss
    | None => raising ss [] AttributeError
    end.

End Page.

(** *** Shapes of the history *)

Definition roles (msgs : list chat_entry) : list string :=
  map (fun m => Prompt.role (message m)) msgs.

(** The history of a conversation in which every turn was answered:
    the introduction of the robot, then pairs of a user message and the
    robot's answer. *)
Fixpoint answered (roles : list string) : bool :=
  match roles with
  | [] => true
  | u :: r :: rest =>
      (u =? "user")%string && (r =? "robot")%string && answered rest
  | _ => false
  end.

Definition dialogue (msgs : list chat_entry) : bool :=
  match roles msgs with
  | r :: rest => (r =? "robot")%string && answered rest
  | [] => false
  end.

End App.

(** ** A session to run the page on *)

Module Demo.

Import App.

(** A model over eight tokens whose end-of-sequence id is [e]. *)
Definition eight_tokens (e : Decoder.eos_value) : Decoder.Model unit :=
  Toy.scripted
    {| Decoder.max_length := Some 20%Z; Decoder.max_new_tokens := None;
       Decoder.do_sample := false; Decoder.bos_token_id := Some 1%Z;
       Decoder.eos_token_id := e |} 0 [].

(** The session of the page with the history [msgs] and the button
    message [button], a model whose end-of-sequence id is 2 and the
    one-letter tokenizer. *)
Definition page (msgs : option (list chat_entry)) (button : option string)
  : session unit :=
  {| messages := msgs;
     button_msg := button;
     page_switch := Some selling_page;
     current_page := Some selling_page;
     first_input := Some "intro"%string;
     sales_info := Some "sell"%string;
     product_name := Some "tea"%string;
     image_path := Some "tea.png"%string;
     hightlight := Some "green"%string;
     model := Some (eight_tokens (Decoder.EosInt 2%Z));
     tokenizer := Some Toy.letters |}.

(** A history of one message, the robot's introduction. *)
Definition greeted : list chat_entry := [entry "robot" "hi" robot_avator].

(** [get_response] on the page, with sampling read off a counter that
    starts at [g]. *)
Definition respond_to (fuel : nat) (prompt : string)
    (e : Decoder.eos_value) (first : bool) (g : nat)
    (msgs : option (list chat_entry)) : reply unit :=
  get_response unit nat Toy.keep Toy.draw tt fuel prompt "sell"
    user_avator robot_avator (eight_tokens e) Toy.letters default_config first g
    (page msgs None).

(** [main] on the page. *)
Definition run_main (fuel : nat) (typed : option string) (g1 g2 : nat)
    (ss : session unit) : reply unit :=
  main unit nat Toy.keep Toy.draw tt fuel "sell" typed g1 g2 ss.

End Demo.

(** * Properties *)

(** ** Prompt assembly *)

Section PromptFacts.

Import Prompt.
Local Open Scope string_scope.

Lemma append_assoc3 (a b c : string) : (a ++ b) ++ c = a ++ b ++ c.
Proof.
  induction a as [|x a IH]; simpl; [reflexivity|].
  now rewrite IH.
Qed.

Lemma append_empty_r (a : string) : a ++ "" = a.
Proof.
  induction a as [|x a IH]; simpl; [reflexivity|].
  now rewrite IH.
Qed.

Lemma format_user_prompt (text : string) :
  format user_prompt "user" text = user_block text.
Proof. reflexivity. Qed.

Lemma format_robot_prompt (text : string) :
  format robot_prompt "robot" text = robot_block text.
Proof. reflexivity. Qed.

Lemma format_cur_query_prompt (text : string) :
  format cur_query_prompt "user" text = query_block text.
Proof. reflexivity. Qed.

Lemma known_role_cases (m : message) :
  known_role m = true ->
  (if role m =? "user" then Ok (format user_prompt "user" (content m))
   else if role m =? "robot"
        then Ok (format robot_prompt "robot" (content m))
        else Raise RuntimeError) = Ok (message_block m).
Proof.
  unfold known_role, message_block.
  destruct (role m =? "user"); [reflexivity|].
  destruct (role m =? "robot"); [reflexivity|discriminate].
Qed.

Lemma unknown_role_raises (m : message) :
  known_role m = false ->
  (if role m =? "user" then Ok (format user_prompt "user" (content m))
   else if role m =? "robot"
        then Ok (format robot_prompt "robot" (content m))
        else Raise RuntimeError) = Raise RuntimeError.
Proof.
  unfold known_role.
  destruct (role m =? "user"); [discriminate|].
  destruct (role m =? "robot"); [discriminate|reflexivity].
Qed.

Lemma add_history_spec (messages : list message) :
  forall total_prompt,
    add_history total_prompt messages =
    if forallb known_role messages
    then Ok (total_prompt ++ history_blocks messages)
    else Raise RuntimeError.
Proof.
  induction messages as [|m rest IH]; intros total_prompt.
  - simpl. now rewrite append_empty_r.
  - cbn [add_history forallb history_blocks fold_right].
    destruct (known_role m) eqn:Hm.
    + rewrite (known_role_cases m Hm). cbn [bind andb].
      rewrite IH. destruct (forallb known_role rest); [|reflexivity].
      now rewrite append_assoc3.
    + now rewrite (unknown_role_raises m Hm).
Qed.

(** C10, as amended. With the history switched on ([with_history] true,
    the default and what [get_response] passes), prompt assembly raises
    [RuntimeError] as soon as some message has a role other than "user"
    and "robot"; when every message has one of these two roles it
    returns the system header, then one templated block per message in
    order, then the current-query template. *)
Theorem combine_history_with_history
    (messages : list message) (prompt meta_instruction : string) :
  combine_history messages prompt meta_instruction true =
  if forallb known_role messages
  then Ok (system_header meta_instruction
           ++ history_blocks messages ++ query_block prompt)
  else Raise RuntimeError.
Proof.
  unfold combine_history. rewrite add_history_spec.
  destruct (forallb known_role messages); [|reflexivity].
  cbn [bind]. rewrite format_cur_query_prompt.
  fold (system_header meta_instruction).
  now rewrite append_assoc3.
Qed.

(** C10 as stated does not hold: with the history switched off, a
    message whose role is neither "user" nor "robot" raises nothing and
    the prompt is the header followed by the query. *)
Lemma combine_history_without_history_ignores_roles :
  known_role (Message "system" "hello") = false /\
  combine_history [Message "system" "hello"] "price?" "sell" false
  = Ok (system_header "sell" ++ query_block "price?") /\
  combine_history [Message "system" "hello"] "price?" "sell" false
  <> Raise RuntimeError.
Proof.
  split; [reflexivity|]. split; [reflexivity|]. discriminate.
Qed.

End PromptFacts.

(** ** Length resolution and token selection *)

Section ConfigurationFacts.

Import Decoder.
Local Open Scope list_scope.
Local Open Scope Z_scope.

(** The resolution when [max_new_tokens] is set: it succeeds, sets
    [max_length] to [max_new_tokens + prompt_length] whatever
    [max_length] was, and logs that both are set exactly when
    [has_default_max_length] is false. *)
Lemma resolve_with_max_new_tokens
    (kw : kwargs) (c : GenerationConfig) (n prompt_length : Z) :
  max_new_tokens c = Some n ->
  exists diags,
    resolve_max_length kw c prompt_length
    = Ok (set_max_length c (n + prompt_length), diags)
    /\ (In BothLengthsSet diags <->
        kwargs_get (kw_max_length kw) <> None \/ max_length c = None).
Proof.
  intros Hn. unfold resolve_max_length. rewrite Hn.
  cbn [is_none andb]. rewrite andb_false_r.
  cbn [set_max_length max_length].
  eexists. split; [reflexivity|].
  destruct (kwargs_get (kw_max_length kw)) as [x|];
    destruct (max_length c) as [m|];
    destruct (prompt_length >=? n + prompt_length);
    cbn; split; intros H;
    try (now left); try (now right); try (left; discriminate);
    try contradiction;
    repeat (destruct H as [H|H]; try discriminate H; try congruence;
            try contradiction).
Qed.

Lemma resolve_unset_raises (kw : kwargs) (c : GenerationConfig) (p : Z) :
  max_length c = None -> max_new_tokens c = None ->
  resolve_max_length kw c p = Raise TypeError.
Proof.
  intros Hm Hn. unfold resolve_max_length. rewrite Hm, Hn.
  cbn. rewrite andb_false_r. cbn. now rewrite Hm.
Qed.

Lemma appended_eos_keeps (c : GenerationConfig) (a : option Z) :
  max_length (appended_eos c a) = max_length c
  /\ max_new_tokens (appended_eos c a) = max_new_tokens c
  /\ do_sample (appended_eos c a) = do_sample c.
Proof.
  unfold appended_eos. destruct (eos_token_id c); destruct a; now cbn.
Qed.

Lemma normalise_eos_raises (e : eos_value) (a : option Z) (x : exception) :
  normalise_eos e a = Raise x -> x = AttributeError.
Proof.
  unfold normalise_eos. destruct a as [a|]; destruct e; intros H;
    try discriminate H; now inversion H.
Qed.

Section Runs.

Variables MK RNG : Type.
Variable softmax : list Q -> list Q.
Variable multinomial : RNG -> list Q -> Z * RNG.
Variable model : Model MK.
Variable tokenizer : Tokenizer.

(** C5. When the configuration the run works with (the configuration
    argument, or the model's, after the keyword arguments are merged in)
    holds neither [max_length] nor [max_new_tokens], the run ends with
    an exception before the first forward pass and before any emission:
    the exception of the length comparison, unless the end-of-sequence
    normalisation has already raised. *)
Theorem unresolved_length_fails_before_forward
    (fuel : nat) (prompt : string) (carg : option GenerationConfig)
    (lp : option (list processor)) (sc : option (list criterion))
    (additional : option Z) (kw : kwargs) (mk : MK) (g : RNG) :
  max_length (update (match carg with
                      | Some c => c
                      | None => generation_config MK model
                      end) kw) = None ->
  max_new_tokens (update (match carg with
                          | Some c => c
                          | None => generation_config MK model
                          end) kw) = None ->
  (outcome (generate_interactive MK RNG softmax multinomial model tokenizer
              fuel prompt carg lp sc additional kw mk g) = FAILED TypeError
   \/ outcome (generate_interactive MK RNG softmax multinomial model tokenizer
                 fuel prompt carg lp sc additional kw mk g)
      = FAILED AttributeError)
  /\ forward_calls (generate_interactive MK RNG softmax multinomial model
                      tokenizer fuel prompt carg lp sc additional kw mk g) = O
  /\ emissions (generate_interactive MK RNG softmax multinomial model
                  tokenizer fuel prompt carg lp sc additional kw mk g) = [].
Proof.
  intros Hm Hn. unfold generate_interactive, prepare.
  set (c := update _ kw) in *.
  destruct (normalise_eos (eos_token_id c) additional) as [x|e] eqn:He;
    cbn [bind].
  - destruct (appended_eos_keeps c additional) as (Hm' & Hn' & _).
    rewrite (resolve_unset_raises kw (appended_eos c additional) _);
      [cbn; auto|congruence|congruence].
  - apply normalise_eos_raises in He. subst e. cbn. auto.
Qed.

End Runs.

Lemma unresolved_length_fails_before_forward_witness :
  outcome (Toy.run_scripted Toy.letters (Toy.greedy None None) [5; 6]
             None Toy.no_kwargs 10 "abc") = FAILED TypeError
  /\ forward_calls (Toy.run_scripted Toy.letters (Toy.greedy None None) [5; 6]
                      None Toy.no_kwargs 10 "abc") = O.
Proof.
  destruct (unresolved_length_fails_before_forward unit nat Toy.keep Toy.draw
              (Toy.scripted (Toy.greedy None None) 3 [5; 6]) Toy.letters
              10 "abc" None None None None Toy.no_kwargs tt O
              eq_refl eq_refl) as [H [H0 _]].
  split; [|exact H0].
  destruct H as [H|H]; [exact H|discriminate H].
Defined.

End ConfigurationFacts.

(** ** Token selection *)

Section SelectionFacts.

Import Decoder.
Local Open Scope list_scope.

(** The scan keeps the first index of the largest value: [pre] is the
    part already scanned, [best] the index kept for it. *)
Lemma argmax_from_first_max (suf : list Q) :
  forall (pre : list Q) (best : nat) (v : Q),
    (best < length pre)%nat ->
    nth best pre 0%Q = v ->
    (forall j, (j < length pre)%nat -> (nth j pre 0 <= v)%Q) ->
    (forall j, (j < best)%nat -> (nth j pre 0 < v)%Q) ->
    let i := argmax_from best v (length pre) suf in
    (i < length (pre ++ suf))%nat
    /\ (forall j, (j < length (pre ++ suf))%nat ->
                  (nth j (pre ++ suf) 0 <= nth i (pre ++ suf) 0)%Q)
    /\ (forall j, (j < i)%nat ->
                  (nth j (pre ++ suf) 0 < nth i (pre ++ suf) 0)%Q).
Proof.
  induction suf as [|x rest IH]; intros pre best v Hb Hv Hmax Hfirst.
  - cbn [argmax_from]. rewrite app_nil_r. rewrite Hv.
    split; [exact Hb|]. split; [exact Hmax|exact Hfirst].
  - cbn [argmax_from].
    replace (pre ++ x :: rest) with ((pre ++ [x]) ++ rest)
      by (rewrite <- app_assoc; reflexivity).
    assert (Hlen : length (pre ++ [x]) = S (length pre))
      by (rewrite length_app; cbn; lia).
    assert (Hx : nth (length pre) (pre ++ [x]) 0%Q = x)
      by (rewrite app_nth2, Nat.sub_diag by lia; reflexivity).
    destruct (Qle_bool x v) eqn:Hle.
    + apply Qle_bool_iff in Hle. rewrite <- Hlen. apply IH.
      * lia.
      * rewrite app_nth1 by lia. exact Hv.
      * intros j Hj. rewrite Hlen in Hj.
        destruct (Nat.eq_dec j (length pre)) as [->|Hne].
        -- rewrite Hx. exact Hle.
        -- rewrite app_nth1 by lia. apply Hmax. lia.
      * intros j Hj. rewrite app_nth1 by lia. now apply Hfirst.
    + assert (Hlt : (v < x)%Q).
      { apply Qnot_le_lt. intros H. apply Qle_bool_iff in H. congruence. }
      rewrite <- Hlen. apply IH.
      * lia.
      * exact Hx.
      * intros j Hj. rewrite Hlen in Hj.
        destruct (Nat.eq_dec j (length pre)) as [->|Hne].
        -- rewrite Hx. apply Qle_refl.
        -- rewrite app_nth1 by lia. apply Qlt_le_weak.
           apply Qle_lt_trans with v; [apply Hmax; lia|exact Hlt].
      * intros j Hj. rewrite app_nth1 by lia.
        apply Qle_lt_trans with v; [apply Hmax; lia|exact Hlt].
Qed.

(** C6. Without sampling, the selection over a non-empty distribution
    returns an index of the vocabulary whose value no other value
    exceeds, and every index before it has a strictly smaller value: of
    the indices that attain the maximum it is the lowest. The random
    source is left as it was. *)
Theorem greedy_selection_is_lowest_argmax
    (RNG : Type) (multinomial : RNG -> list Q -> Z * RNG)
    (g : RNG) (probs : list Q) :
  probs <> [] ->
  exists i,
    next_tokens RNG multinomial false g probs = Ok (Z.of_nat i, g)
    /\ (i < length probs)%nat
    /\ (forall j, (j < length probs)%nat ->
                  (nth j probs 0 <= nth i probs 0)%Q)
    /\ (forall j, (j < length probs)%nat ->
                  (nth j probs 0 == nth i probs 0)%Q -> (i <= j)%nat).
Proof.
  intros Hne. destruct probs as [|x rest]; [congruence|].
  exists (argmax_from 0 x 1 rest).
  split; [reflexivity|].
  destruct (argmax_from_first_max rest [x] 0%nat x) as [Hi [Hmax Hfirst]].
  - cbn. lia.
  - reflexivity.
  - intros j Hj. cbn in Hj. assert (j = 0)%nat as -> by lia. apply Qle_refl.
  - intros j Hj. lia.
  - cbn [length app] in *.
    split; [exact Hi|]. split; [exact Hmax|].
    intros j Hj Heq.
    destruct (Nat.le_gt_cases (argmax_from 0 x 1 rest) j) as [H|H];
      [exact H|].
    apply Hfirst in H. rewrite Heq in H. now apply Qlt_irrefl in H.
Qed.

Lemma greedy_selection_is_lowest_argmax_witness :
  [0.1; 0.9; 0.9; 0.05]%Q <> [] /\
  exists i,
    next_tokens nat Toy.draw false O [0.1; 0.9; 0.9; 0.05]%Q
    = Ok (Z.of_nat i, O)
    /\ (i < length [0.1; 0.9; 0.9; 0.05]%Q)%nat
    /\ (forall j, (j < length [0.1; 0.9; 0.9; 0.05]%Q)%nat ->
                  (nth j [0.1; 0.9; 0.9; 0.05] 0
                   <= nth i [0.1; 0.9; 0.9; 0.05] 0)%Q)
    /\ (forall j, (j < length [0.1; 0.9; 0.9; 0.05]%Q)%nat ->
                  (nth j [0.1; 0.9; 0.9; 0.05] 0
                   == nth i [0.1; 0.9; 0.9; 0.05] 0)%Q -> (i <= j)%nat).
Proof.
  split; [discriminate|].
  apply (greedy_selection_is_lowest_argmax nat Toy.draw O
           [0.1; 0.9; 0.9; 0.05]%Q).
  discriminate.
Defined.

End SelectionFacts.

(** ** The decode loop *)

Section LoopFacts.

Import Decoder.
Local Open Scope list_scope.
Local Open Scope Z_scope.

(** *** End-of-sequence helpers *)

Lemma fold_min_all (rest : list bool) :
  forall b,
    fold_left (fun m x => if negb x && m then x else m) rest b
    = b && forallb (fun x => x) rest.
Proof.
  induction rest as [|x rest IH]; intros b; cbn [fold_left forallb].
  - now rewrite andb_true_r.
  - rewrite IH. destruct x, b; reflexivity.
Qed.

Lemma py_min_differs (tok : Z) (eosl : list Z) :
  eosl <> [] ->
  py_min (map (fun i => negb (tok =? i)) eosl) = Ok (negb (is_eos eosl tok)).
Proof.
  destruct eosl as [|e rest]; [congruence|]. intros _.
  cbn [map py_min]. rewrite fold_min_all. f_equal.
  unfold is_eos. cbn [existsb]. rewrite negb_orb. f_equal.
  induction rest as [|x rest IH]; [reflexivity|].
  cbn [map forallb existsb]. now rewrite IH, negb_orb.
Qed.

Lemma last_item_snoc (gen : list Z) (tok : Z) :
  last_item (gen ++ [tok]) = Ok tok.
Proof.
  destruct gen as [|x gen]; [reflexivity|].
  cbn [app last_item]. now rewrite last_last.
Qed.

Lemma last_cons_default (gen : list Z) :
  forall x d1 d2, last (x :: gen) d1 = last (x :: gen) d2.
Proof.
  induction gen as [|y gen IH]; intros x d1 d2; [reflexivity|].
  change (last (y :: gen) d1 = last (y :: gen) d2). apply IH.
Qed.

Lemma last_item_cons (x : Z) (gen : list Z) :
  last_item (x :: gen) = Ok (last (x :: gen) 0).
Proof.
  cbn [last_item]. f_equal.
  destruct gen as [|y gen]; [reflexivity|].
  change (last (y :: gen) x = last (y :: gen) 0). apply last_cons_default.
Qed.

Lemma strip_single_snoc (eosl gen : list Z) (tok : Z) :
  strip_single eosl (gen ++ [tok])
  = if is_eos eosl tok then gen else gen ++ [tok].
Proof.
  destruct gen as [|x gen].
  - cbn. now destruct (is_eos eosl tok).
  - change (strip_single eosl ((x :: gen) ++ [tok]))
      with (if is_eos eosl (last (gen ++ [tok]) x)
            then removelast ((x :: gen) ++ [tok])
            else (x :: gen) ++ [tok]).
    now rewrite last_last, removelast_last.
Qed.

(** A sequence whose last token is no end-of-sequence id goes through
    the stripping loop unchanged. *)
Lemma strip_eos_clean (eosl : list Z) :
  forall gen,
    gen <> [] -> is_eos eosl (last gen 0) = false ->
    strip_eos eosl gen = Ok gen.
Proof.
  induction eosl as [|e rest IH]; intros gen Hne Hlast; [reflexivity|].
  destruct gen as [|x gen]; [congruence|].
  cbn [strip_eos]. rewrite last_item_cons. cbn [bind].
  unfold is_eos in Hlast. cbn [existsb] in Hlast.
  apply orb_false_iff in Hlast. destruct Hlast as [He Hrest].
  rewrite He. now apply IH.
Qed.

(** When only the last token can be an end-of-sequence id, the
    stripping loop, if it returns, has stripped that one token or
    nothing. *)
Lemma strip_eos_single (eosl : list Z) :
  forall gen tok out,
    (gen = [] \/ is_eos eosl (last gen 0) = false) ->
    strip_eos eosl (gen ++ [tok]) = Ok out ->
    out = strip_single eosl (gen ++ [tok]).
Proof.
  induction eosl as [|e rest IH]; intros gen tok out Hgen Hstrip.
  - cbn in Hstrip. rewrite strip_single_snoc. cbn. congruence.
  - rewrite strip_single_snoc.
    cbn [strip_eos] in Hstrip. rewrite last_item_snoc in Hstrip.
    cbn [bind] in Hstrip. unfold is_eos. cbn [existsb]. fold (is_eos rest tok).
    destruct (tok =? e) eqn:He; cbn [orb].
    + rewrite removelast_last in Hstrip.
      destruct Hgen as [->|Hgen].
      * destruct rest; cbn in Hstrip; congruence.
      * destruct gen as [|x gen]; [destruct rest; cbn in Hstrip; congruence|].
        unfold is_eos in Hgen. cbn [existsb] in Hgen.
        apply orb_false_iff in Hgen. destruct Hgen as [_ Hgen].
        rewrite strip_eos_clean in Hstrip; [congruence|discriminate|exact Hgen].
    + rewrite <- strip_single_snoc. apply IH; [|exact Hstrip].
      destruct Hgen as [->|Hgen]; [now left|right].
      unfold is_eos in Hgen. cbn [existsb] in Hgen.
      now apply orb_false_iff in Hgen.
Qed.

Lemma last_not_eos (eosl gen : list Z) :
  Forall (fun t => is_eos eosl t = false) gen ->
  gen = [] \/ is_eos eosl (last gen 0) = false.
Proof.
  intros H. destruct gen as [|x gen]; [now left|right].
  rewrite Forall_forall in H. apply H.
  destruct (exists_last (l := x :: gen)) as [l' [a ->]]; [discriminate|].
  rewrite last_last. apply in_or_app. right. now left.
Qed.

(** *** One pass *)

Variables MK RNG : Type.
Variable softmax : list Q -> list Q.
Variable multinomial : RNG -> list Q -> Z * RNG.
Variable model : Model MK.
Variable tokenizer : Tokenizer.

Local Abbreviation step := (step MK RNG softmax multinomial model tokenizer).
Local Abbreviation loop := (loop MK RNG softmax multinomial model tokenizer).
Local Abbreviation prepare := (prepare MK RNG model tokenizer).
Local Abbreviation generate_interactive :=
  (generate_interactive MK RNG softmax multinomial model tokenizer).

(** What a pass that yields has done. *)
Lemma step_yields (s : setup) (st st' : state MK RNG) (response : string) :
  step s st = Ok (response, st') ->
  exists tok eosl out,
    eos s = Some eosl /\ eosl <> []
    /\ input_ids MK RNG st' = input_ids MK RNG st ++ [tok]
    /\ unfinished_sequences MK RNG st'
       = unfinished_sequences MK RNG st * (if is_eos eosl tok then 0 else 1)
    /\ strip_eos eosl (skipn (input_length s) (input_ids MK RNG st ++ [tok]))
       = Ok out
    /\ response = decode tokenizer out.
Proof.
  unfold Decoder.step.
  destruct (forward MK model _ _) as [logits mk].
  destruct (next_tokens RNG multinomial _ _ _) as [[tok g]|e];
    cbn [bind]; [|discriminate].
  destruct (eos s) as [eosl|]; cbn [iterate bind]; [|discriminate].
  destruct eosl as [|e0 rest].
  { cbn. discriminate. }
  rewrite py_min_differs by discriminate. cbn [bind].
  destruct (strip_eos (e0 :: rest) _) as [out|e] eqn:Hstrip;
    cbn [bind]; [|discriminate].
  intros H. inversion H; subst. clear H.
  exists tok, (e0 :: rest), out.
  cbn [input_ids unfinished_sequences].
  repeat split; try discriminate; try assumption.
  change (is_eos (e0 :: rest) tok) with ((tok =? e0) || is_eos rest tok).
  now destruct ((tok =? e0) || is_eos rest tok).
Qed.

(** *** Stop sources *)

(** The test after [yield] is the disjunction of its sources: the
    sequence is finished, or some criterion holds of the sequence. *)
Lemma finished_is_disjunction (s : setup) (st : state MK RNG) :
  finished MK RNG s st = true <->
  unfinished_sequences MK RNG st = 0
  \/ exists c, In c (stopping_criteria s)
               /\ c (input_ids MK RNG st) = true.
Proof.
  unfold finished, call_criteria. rewrite orb_true_iff, Z.eqb_eq.
  now rewrite existsb_exists.
Qed.

(** A pass that yields an end-of-sequence id of the configured list
    leaves the sequence finished, whichever of the ids it is. *)
Lemma yielded_eos_finishes (s : setup) (st st' : state MK RNG)
    (response : string) :
  step s st = Ok (response, st') ->
  is_eos (eos_ids (eos s))
         (last (input_ids MK RNG st') 0) = true ->
  finished MK RNG s st' = true.
Proof.
  intros Hstep Hlast.
  destruct (step_yields _ _ _ _ Hstep)
    as (tok & eosl & out & Heos & _ & Hids & Hunf & _).
  rewrite Heos, Hids, last_last in Hlast. cbn [eos_ids] in Hlast.
  apply finished_is_disjunction. left.
  rewrite Hunf, Hlast. lia.
Qed.

(** *** The emissions of a run *)

(** The invariant of the loop. While the run is in the loop, no token
    generated so far ([gen]) is an end-of-sequence id; the tokens the
    rest of the run adds ([new]) are end-of-sequence ids at most in the
    last place, and the emission of each pass that yields is the
    decoding of what is generated so far with that token stripped. *)
Lemma loop_emissions (s : setup) (eosl ids0 : list Z) :
  eos s = Some eosl ->
  input_length s = length ids0 ->
  forall (fuel : nat) (st : state MK RNG) (gen : list Z),
    input_ids MK RNG st = ids0 ++ gen ->
    unfinished_sequences MK RNG st = 1 ->
    Forall (fun t => is_eos eosl t = false) gen ->
    exists new,
      token_ids (loop fuel s st) = ids0 ++ gen ++ new
      /\ length (emissions (loop fuel s st)) = length new
      /\ (forall k, (S k < length new)%nat ->
                    is_eos eosl (nth k new 0) = false)
      /\ forall k, (k < length new)%nat ->
           nth k (emissions (loop fuel s st)) ""%string
           = decode tokenizer (strip_single eosl (gen ++ firstn (S k) new)).
Proof.
  intros Heos Hlen.
  induction fuel as [|fuel IH]; intros st gen Hids Hunf Hgen.
  - exists []. cbn. rewrite app_nil_r.
    split; [exact Hids|]. split; [reflexivity|].
    split; intros k Hk; lia.
  - cbn [Decoder.loop].
    destruct (step s st) as [[response st']|e] eqn:Hstep.
    + destruct (step_yields _ _ _ _ Hstep)
        as (tok & eosl' & out & He & Hne & Hids' & Hunf' & Hstrip & Hresp).
      rewrite Heos in He. inversion He; subst eosl'. clear He.
      rewrite Hids, <- app_assoc, Hlen in Hstrip.
      rewrite skipn_app, skipn_all, Nat.sub_diag in Hstrip.
      cbn [skipn app] in Hstrip.
      apply strip_eos_single in Hstrip; [|now apply last_not_eos].
      subst out.
      destruct (finished MK RNG s st') eqn:Hfin.
      * exists [tok]. cbn [emissions token_ids length removelast].
        split; [now rewrite Hids', Hids, <- app_assoc|].
        split; [reflexivity|]. split; [intros k Hk; lia|].
        intros k Hk. assert (k = 0)%nat as -> by lia.
        cbn [nth firstn]. exact Hresp.
      * unfold finished in Hfin. apply orb_false_iff in Hfin.
        destruct Hfin as [Hu _]. rewrite Hunf', Hunf in Hu.
        destruct (is_eos eosl tok) eqn:Htok; [cbn in Hu; discriminate|].
        destruct (IH st' (gen ++ [tok])) as (new & Htok' & Hem & Hnew & Hnth).
        -- now rewrite Hids', Hids, <- app_assoc.
        -- rewrite Hunf', Hunf. reflexivity.
        -- apply Forall_app. split; [exact Hgen|]. now constructor.
        -- exists (tok :: new). cbn [emissions token_ids length].
           split; [now rewrite Htok', <- app_assoc|].
           split; [now rewrite Hem|].
           split.
           { intros k Hk. destruct k as [|k]; [exact Htok|].
             cbn [nth]. apply Hnew. lia. }
           intros k Hk. destruct k as [|k].
           ++ cbn [nth firstn]. exact Hresp.
           ++ cbn [nth]. rewrite Hnth by lia.
              change (firstn (S (S k)) (tok :: new))
                with (tok :: firstn (S k) new).
              now rewrite <- app_assoc.
    + exists []. cbn. rewrite app_nil_r.
      split; [exact Hids|]. split; [reflexivity|].
      split; intros k Hk; lia.
Qed.

Lemma resolve_gives_length (kw : kwargs) (c c' : GenerationConfig)
    (p : Z) (diags : list diagnostic) :
  resolve_max_length kw c p = Ok (c', diags) ->
  exists m, max_length c' = Some m.
Proof.
  unfold resolve_max_length.
  destruct (is_none (kwargs_get (kw_max_length kw)) && is_some (max_length c));
    destruct (max_new_tokens c) as [n|]; cbn;
    try (destruct (max_length c) as [m|] eqn:Hm; [|discriminate]);
    intros H; inversion H; subst; cbn; eauto.
Qed.

(** A run that gets past the statements before the loop starts the loop
    on the prompt's tokens, none generated yet. *)
Lemma prepare_start (prompt : string) (carg : option GenerationConfig)
    (lp : option (list processor)) (sc : option (list criterion))
    (additional : option Z) (kw : kwargs) (mk : MK) (g : RNG)
    (s : setup) (st : state MK RNG) :
  prepare prompt carg lp sc additional kw mk g = Ok (s, st) ->
  input_ids MK RNG st = encode tokenizer prompt
  /\ input_length s = length (encode tokenizer prompt)
  /\ unfinished_sequences MK RNG st = 1
  /\ rng MK RNG st = g
  /\ model_kwargs MK RNG st = mk
  /\ exists m user,
       max_length (config s) = Some m
       /\ stopping_criteria s = MaxLengthCriteria m :: user.
Proof.
  unfold Decoder.prepare.
  destruct (normalise_eos _ _) as [eosv|e]; cbn [bind]; [|discriminate].
  destruct (resolve_max_length _ _ _) as [[c diags]|e] eqn:Hres;
    cbn [bind]; [|discriminate].
  intros H. inversion H; subst. clear H. cbn.
  repeat split.
  destruct (resolve_gives_length _ _ _ _ _ Hres) as [m Hm].
  exists m. eexists.
  split; [exact Hm|]. unfold get_stopping_criteria. rewrite Hm. reflexivity.
Qed.

Lemma loop_without_eos (s : setup) :
  eos s = None ->
  forall (fuel : nat) (st : state MK RNG), emissions (loop fuel s st) = [].
Proof.
  intros Heos fuel st. destruct fuel as [|fuel]; [reflexivity|].
  cbn [Decoder.loop].
  destruct (step s st) as [[response st']|e] eqn:Hstep; [|reflexivity].
  destruct (step_yields _ _ _ _ Hstep) as (tok & eosl & out & He & _).
  congruence.
Qed.

Lemma skipn_prompt (ids0 new : list Z) :
  skipn (length ids0) (ids0 ++ new) = new.
Proof.
  now rewrite skipn_app, skipn_all, Nat.sub_diag.
Qed.

(** *** Order of the emissions *)

Lemma string_length_append (a b : string) :
  String.length (a ++ b)%string = (String.length a + String.length b)%nat.
Proof.
  induction a as [|x a IH]; cbn; [reflexivity|]. now rewrite IH.
Qed.

Lemma extends_length (a b : string) :
  extends a b -> (String.length a <= String.length b)%nat.
Proof.
  intros [x ->]. rewrite string_length_append. lia.
Qed.

Lemma extends_refl (a : string) : extends a a.
Proof.
  exists ""%string. now rewrite append_empty_r.
Qed.

Lemma firstn_snoc (l : list Z) :
  forall k, (k < length l)%nat -> firstn (S k) l = firstn k l ++ [nth k l 0].
Proof.
  induction l as [|x l IH]; intros k Hk; cbn in Hk; [lia|].
  destruct k as [|k]; [reflexivity|].
  change (x :: firstn (S k) l = x :: (firstn k l ++ [nth k l 0])).
  f_equal. apply IH. lia.
Qed.

(** C8, as amended. For a tokenizer whose decoding of a token sequence
    extended by one token extends the decoding of the sequence, the
    texts a run emits are ordered: each emission extends the one before
    it or equals it (the last one equals it when the last token is an
    end-of-sequence id, which is stripped), and the lengths never
    decrease. *)
Theorem emissions_extend_under_extending_decoder
    (fuel : nat) (prompt : string) (carg : option GenerationConfig)
    (lp : option (list processor)) (sc : option (list criterion))
    (additional : option Z) (kw : kwargs) (mk : MK) (g : RNG) :
  (forall (a : list Z) (t : Z),
      extends (decode tokenizer a) (decode tokenizer (a ++ [t]))) ->
  monotone_emissions
    (emissions
       (generate_interactive fuel prompt carg lp sc additional kw mk g)).
Proof.
  intros Hdec. unfold Decoder.generate_interactive.
  destruct (prepare prompt carg lp sc additional kw mk g)
    as [[s st]|e] eqn:Hprep; [|intros k Hk; cbn in Hk; lia].
  destruct (prepare_start _ _ _ _ _ _ _ _ _ _ Hprep)
    as (Hids & Hlen & Hunf & _).
  destruct (eos s) as [eosl|] eqn:Heos;
    [|rewrite (loop_without_eos s Heos); intros k Hk; cbn in Hk; lia].
  destruct (loop_emissions s eosl (encode tokenizer prompt) Heos Hlen
              fuel st [])
    as (new & _ & Hem & Hclean & Hnth);
    [now rewrite app_nil_r|exact Hunf|constructor|].
  intros k Hk. rewrite Hem in Hk.
  assert (Hext : extends
            (nth k (emissions (loop fuel s st)) ""%string)
            (nth (S k) (emissions (loop fuel s st)) ""%string)).
  { rewrite (Hnth k), (Hnth (S k)) by lia. cbn [app].
    rewrite (firstn_snoc new (S k)) by lia.
    rewrite strip_single_snoc.
    assert (Hk' : strip_single eosl (firstn (S k) new) = firstn (S k) new).
    { rewrite (firstn_snoc new k) by lia. rewrite strip_single_snoc.
      now rewrite Hclean by lia. }
    rewrite Hk'.
    destruct (is_eos eosl (nth (S k) new 0)); [apply extends_refl|].
    apply Hdec. }
  split; [exact Hext|]. now apply extends_length.
Qed.

(** *** The bound on the number of passes *)

Lemma step_length (s : setup) (st st' : state MK RNG) (response : string) :
  step s st = Ok (response, st') ->
  length (input_ids MK RNG st') = S (length (input_ids MK RNG st)).
Proof.
  intros Hstep.
  destruct (step_yields _ _ _ _ Hstep) as (tok & _ & _ & _ & _ & Hids & _).
  rewrite Hids, length_app. cbn. lia.
Qed.

(** The length criterion ends the loop at the latest when the sequence
    has [m] tokens, and the first pass is made whatever the length. *)
Lemma loop_bounded (s : setup) (m : Z) (user : list criterion) :
  stopping_criteria s = MaxLengthCriteria m :: user ->
  forall (fuel : nat) (st : state MK RNG),
    Z.of_nat (forward_calls (loop fuel s st))
    <= Z.max 1 (m - Z.of_nat (length (input_ids MK RNG st)))
    /\ (Z.max 1 (m - Z.of_nat (length (input_ids MK RNG st)))
        <= Z.of_nat fuel ->
        outcome (loop fuel s st) <> RUNNING).
Proof.
  intros Hsc. induction fuel as [|fuel IH]; intros st.
  - cbn [Decoder.loop forward_calls outcome]. split; lia.
  - cbn [Decoder.loop].
    destruct (step s st) as [[response st']|e] eqn:Hstep.
    + pose proof (step_length _ _ _ _ Hstep) as Hlen.
      destruct (finished MK RNG s st') eqn:Hfin.
      * cbn [forward_calls outcome]. split; [lia|discriminate].
      * cbn [forward_calls outcome].
        unfold finished in Hfin. apply orb_false_iff in Hfin.
        destruct Hfin as [_ Hcrit]. rewrite Hsc in Hcrit.
        unfold call_criteria in Hcrit. cbn [existsb] in Hcrit.
        apply orb_false_iff in Hcrit. destruct Hcrit as [Hmax _].
        unfold MaxLengthCriteria in Hmax. rewrite Z.geb_leb in Hmax. apply Z.leb_gt in Hmax.
        destruct (IH st') as [Hcalls Hend]. split; [lia|].
        intros Hfuel. apply Hend. lia.
    + cbn [forward_calls outcome]. split; [lia|discriminate].
Qed.

(** C4, as amended. A run that enters the loop with the resolved
    [max_length] makes at most [max(1, max_length - prompt_length)]
    forward passes, whatever tokens are selected, and after that many
    passes it is no longer in the loop: the length criterion fires once
    the sequence has [max_length] tokens, and it is consulted only
    after a pass. *)
Theorem passes_bounded_by_max_length
    (fuel : nat) (prompt : string) (carg : option GenerationConfig)
    (lp : option (list processor)) (sc : option (list criterion))
    (additional : option Z) (kw : kwargs) (mk : MK) (g : RNG)
    (s : setup) (st : state MK RNG) :
  prepare prompt carg lp sc additional kw mk g = Ok (s, st) ->
  exists m,
    max_length (config s) = Some m
    /\ Z.of_nat (forward_calls
                   (generate_interactive fuel prompt carg lp sc additional
                      kw mk g))
       <= Z.max 1 (m - Z.of_nat (input_length s))
    /\ (Z.max 1 (m - Z.of_nat (input_length s)) <= Z.of_nat fuel ->
        outcome (generate_interactive fuel prompt carg lp sc additional
                   kw mk g) <> RUNNING).
Proof.
  intros Hprep. unfold Decoder.generate_interactive. rewrite Hprep.
  destruct (prepare_start _ _ _ _ _ _ _ _ _ _ Hprep)
    as (Hids & Hlen & _ & _ & _ & m & user & Hm & Hsc).
  exists m. split; [exact Hm|].
  rewrite Hlen, <- Hids. exact (loop_bounded s m user Hsc fuel st).
Qed.

(** C1. In every run in which [max_new_tokens] is provided, as a keyword
    argument or by the configuration when no keyword argument replaces
    it, the run enters the loop with [max_length] equal to
    [max_new_tokens] plus the number of tokens of the encoded prompt,
    whatever [max_length] the configuration or the keyword arguments
    carry. The diagnostic that both are set is among the diagnostics of
    that run exactly when a [max_length] was passed as a keyword argument
    or the configuration holds none. The run keeps to the derived cap:
    it makes at most [max(1, max_new_tokens)] forward passes and is out
    of the loop after that many. *)
Theorem max_new_tokens_takes_precedence
    (fuel : nat) (prompt : string) (carg : option GenerationConfig)
    (lp : option (list processor)) (sc : option (list criterion))
    (additional : option Z) (kw : kwargs) (mk : MK) (g : RNG)
    (s : setup) (st : state MK RNG) (n : Z) :
  kw_max_new_tokens kw = Some (Some n)
  \/ (kw_max_new_tokens kw = None
      /\ max_new_tokens (match carg with
                         | Some c => c
                         | None => generation_config MK model
                         end) = Some n) ->
  prepare prompt carg lp sc additional kw mk g = Ok (s, st) ->
  max_length (config s)
  = Some (n + Z.of_nat (length (encode tokenizer prompt)))
  /\ (In BothLengthsSet (diagnostics s) <->
      kwargs_get (kw_max_length kw) <> None
      \/ max_length (update (match carg with
                             | Some c => c
                             | None => generation_config MK model
                             end) kw) = None)
  /\ Z.of_nat (forward_calls
                 (generate_interactive fuel prompt carg lp sc additional
                    kw mk g))
     <= Z.max 1 n
  /\ (Z.max 1 n <= Z.of_nat fuel ->
      outcome (generate_interactive fuel prompt carg lp sc additional
                 kw mk g) <> RUNNING).
Proof.
  intros Hn Hprep.
  remember (match carg with
            | Some c => c
            | None => generation_config MK model
            end) as c0 eqn:Hc0.
  destruct (appended_eos_keeps (update c0 kw) additional) as (Hkm & Hkn & _).
  assert (Hn' : max_new_tokens (appended_eos (update c0 kw) additional)
                = Some n).
  { rewrite Hkn. cbn [update max_new_tokens].
    destruct Hn as [->|[-> Hn]]; [reflexivity|exact Hn]. }
  assert (Hcfg : max_length (config s)
                 = Some (n + Z.of_nat (length (encode tokenizer prompt)))
                 /\ (In BothLengthsSet (diagnostics s) <->
                     kwargs_get (kw_max_length kw) <> None
                     \/ max_length (update c0 kw) = None)).
  { pose proof Hprep as H. unfold Decoder.prepare in H. rewrite <- Hc0 in H.
    destruct (normalise_eos _ _) as [eosv|e]; cbn [bind] in H;
      [|discriminate].
    destruct (resolve_with_max_new_tokens kw _ n
                (Z.of_nat (length (encode tokenizer prompt))) Hn')
      as (diags & Hres & Hd).
    rewrite Hres in H. cbn [bind] in H. inversion H; subst s st. clear H.
    cbn [config diagnostics set_max_length max_length].
    split; [reflexivity|]. now rewrite <- Hkm. }
  destruct Hcfg as [Hml Hd]. split; [exact Hml|]. split; [exact Hd|].
  unfold Decoder.generate_interactive. rewrite Hprep.
  destruct (prepare_start _ _ _ _ _ _ _ _ _ _ Hprep)
    as (Hids & _ & _ & _ & _ & m & user & Hm & Hsc).
  rewrite Hml in Hm. inversion Hm; subst m.
  pose proof (loop_bounded s _ user Hsc fuel st) as Hb. rewrite Hids in Hb.
  replace (n + Z.of_nat (length (encode tokenizer prompt))
           - Z.of_nat (length (encode tokenizer prompt))) with n in Hb
    by lia.
  exact Hb.
Qed.

(** *** Runs without sampling *)

Lemma step_greedy (s : setup) (st : state MK RNG) (g : RNG) :
  do_sample (config s) = false ->
  step s (set_rng st g)
  = match step s st with
    | Ok (response, st') => Ok (response, set_rng st' g)
    | Raise e => Raise e
    end.
Proof.
  intros Hgreedy. unfold Decoder.step.
  cbn [set_rng input_ids model_kwargs unfinished_sequences rng].
  destruct (forward MK model _ _) as [logits mk].
  rewrite Hgreedy. unfold next_tokens.
  destruct (argmax _) as [i|e]; cbn [bind]; [|reflexivity].
  destruct (iterate (eos s)) as [eosl|e]; cbn [bind]; [|reflexivity].
  destruct (py_min _) as [differs|e]; cbn [bind]; [|reflexivity].
  destruct (strip_eos _ _) as [out|e]; cbn [bind]; reflexivity.
Qed.

Lemma loop_greedy (s : setup) :
  do_sample (config s) = false ->
  forall (fuel : nat) (st : state MK RNG) (g : RNG),
    loop fuel s (set_rng st g) = loop fuel s st.
Proof.
  intros Hgreedy. induction fuel as [|fuel IH]; intros st g; [reflexivity|].
  cbn [Decoder.loop]. rewrite (step_greedy s st g Hgreedy).
  destruct (step s st) as [[response st']|e]; [|reflexivity].
  change (finished MK RNG s (set_rng st' g)) with (finished MK RNG s st').
  destruct (finished MK RNG s st'); [reflexivity|].
  now rewrite IH.
Qed.

Lemma resolve_keeps_do_sample (kw : kwargs) (c c' : GenerationConfig)
    (p : Z) (diags : list diagnostic) :
  resolve_max_length kw c p = Ok (c', diags) ->
  do_sample c' = do_sample c.
Proof.
  unfold resolve_max_length.
  destruct (is_none (kwargs_get (kw_max_length kw)) && is_some (max_length c));
    destruct (max_new_tokens c) as [n|]; cbn;
    try (destruct (max_length c) as [m|] eqn:Hm; [|discriminate]);
    intros H; inversion H; subst; reflexivity.
Qed.

Lemma prepare_rng (prompt : string) (carg : option GenerationConfig)
    (lp : option (list processor)) (sc : option (list criterion))
    (additional : option Z) (kw : kwargs) (mk : MK) (g1 g2 : RNG) :
  prepare prompt carg lp sc additional kw mk g1
  = match prepare prompt carg lp sc additional kw mk g2 with
    | Ok (s, st) => Ok (s, set_rng st g1)
    | Raise e => Raise e
    end.
Proof.
  unfold Decoder.prepare.
  destruct (normalise_eos _ _) as [eosv|e]; cbn [bind]; [|reflexivity].
  destruct (resolve_max_length _ _ _) as [[c diags]|e]; cbn [bind];
    reflexivity.
Qed.

Lemma prepare_do_sample (prompt : string) (carg : option GenerationConfig)
    (lp : option (list processor)) (sc : option (list criterion))
    (additional : option Z) (kw : kwargs) (mk : MK) (g : RNG)
    (s : setup) (st : state MK RNG) :
  prepare prompt carg lp sc additional kw mk g = Ok (s, st) ->
  do_sample (config s)
  = do_sample (update (match carg with
                       | Some c => c
                       | None => generation_config MK model
                       end) kw).
Proof.
  unfold Decoder.prepare.
  destruct (normalise_eos _ _) as [eosv|e]; cbn [bind]; [|discriminate].
  destruct (resolve_max_length _ _ _) as [[c diags]|e] eqn:Hres;
    cbn [bind]; [|discriminate].
  intros H. inversion H; subst. cbn [config].
  rewrite (resolve_keeps_do_sample _ _ _ _ _ Hres).
  apply appended_eos_keeps.
Qed.

(** C7. Two runs without sampling on the same prompt, configuration,
    arguments and model state agree on everything a run shows, whatever
    the states of their random sources: the same emissions (so the same
    final one), the same token sequence, the same number of passes and
    the same end. *)
Theorem greedy_runs_agree
    (fuel : nat) (prompt : string) (carg : option GenerationConfig)
    (lp : option (list processor)) (sc : option (list criterion))
    (additional : option Z) (kw : kwargs) (mk : MK) (g1 g2 : RNG) :
  do_sample (update (match carg with
                     | Some c => c
                     | None => generation_config MK model
                     end) kw) = false ->
  generate_interactive fuel prompt carg lp sc additional kw mk g1
  = generate_interactive fuel prompt carg lp sc additional kw mk g2.
Proof.
  intros Hgreedy. unfold Decoder.generate_interactive.
  rewrite (prepare_rng prompt carg lp sc additional kw mk g1 g2).
  destruct (prepare prompt carg lp sc additional kw mk g2)
    as [[s st]|e] eqn:Hprep; [|reflexivity].
  apply loop_greedy.
  now rewrite (prepare_do_sample _ _ _ _ _ _ _ _ _ _ Hprep).
Qed.

End LoopFacts.

(** ** Runs of the small models *)

Section ToyRuns.

Import Decoder.
Local Open Scope list_scope.
Local Open Scope Z_scope.

(** The keyword arguments of a call that passes both lengths. *)
Local Abbreviation both_lengths :=
  {| kw_max_length := Some (Some 32768);
     kw_max_new_tokens := Some (Some 2);
     kw_do_sample := None |}.

Lemma max_new_tokens_takes_precedence_witness :
  exists s st,
    prepare unit nat
      (Toy.scripted (Toy.greedy (Some 32768) None) 3 [5; 6; 7; 3])
      Toy.letters "abc" None None None None both_lengths tt O = Ok (s, st)
    /\ max_length (config s) = Some (2 + 3)
    /\ In BothLengthsSet (diagnostics s)
    /\ forward_calls
         (Toy.run_scripted Toy.letters (Toy.greedy (Some 32768) None)
            [5; 6; 7; 3] None both_lengths 10 "abc") = 2%nat
    /\ outcome
         (Toy.run_scripted Toy.letters (Toy.greedy (Some 32768) None)
            [5; 6; 7; 3] None both_lengths 10 "abc") <> RUNNING.
Proof.
  eexists. eexists. split; [reflexivity|].
  destruct (max_new_tokens_takes_precedence unit nat Toy.keep Toy.draw
              (Toy.scripted (Toy.greedy (Some 32768) None) 3 [5; 6; 7; 3])
              Toy.letters 10 "abc"%string None None None None both_lengths
              tt O _ _ 2 (or_introl eq_refl) eq_refl)
    as (Hml & Hd & _ & Hend).
  split; [exact Hml|].
  split; [apply Hd; left; discriminate|].
  split; [reflexivity|].
  apply Hend. cbn. lia.
Defined.

(** The one-letter-per-token tokenizer decodes an extended sequence to
    an extended text. *)
Lemma letters_decode_extends (a : list Z) (t : Z) :
  extends (decode Toy.letters a) (decode Toy.letters (a ++ [t])).
Proof.
  induction a as [|x a IH].
  - exists (Toy.letter t). reflexivity.
  - destruct IH as [text IH]. exists text.
    cbn [Toy.letters decode app fold_right] in *.
    rewrite IH. now rewrite append_assoc3.
Qed.

Lemma emissions_extend_under_extending_decoder_witness :
  monotone_emissions
    (emissions (Toy.run_scripted Toy.letters (Toy.greedy (Some 20) None)
                  [5; 6; 2] (Some 92542) Toy.no_kwargs 10 "abc")).
Proof.
  exact (emissions_extend_under_extending_decoder unit nat Toy.keep Toy.draw
           (Toy.scripted (Toy.greedy (Some 20) None) 3 [5; 6; 2])
           Toy.letters 10 "abc"%string None None None (Some 92542)
           Toy.no_kwargs tt O letters_decode_extends).
Defined.

(** C8 as stated does not hold: with a tokenizer in which a character
    takes two tokens, the run that generates the two tokens and then the
    end-of-sequence id emits the replacement text, then the character;
    the first emission is not a prefix of the second. *)
Lemma emissions_not_prefix_ordered :
  emissions (Toy.run_scripted Toy.pairs (Toy.greedy (Some 20) None)
               [4; 5; 2] None Toy.no_kwargs 10 "abc")
  = ["?"%string; "e"%string; "e"%string]
  /\ ~ monotone_emissions
        (emissions (Toy.run_scripted Toy.pairs (Toy.greedy (Some 20) None)
                      [4; 5; 2] None Toy.no_kwargs 10 "abc")).
Proof.
  split; [reflexivity|].
  intros H. destruct (H 0%nat) as [[text Htext] _]; [cbn; lia|].
  cbn in Htext. discriminate Htext.
Qed.

Lemma passes_bounded_by_max_length_witness :
  exists s st,
    prepare unit nat (Toy.scripted (Toy.greedy (Some 5) None) 3 [5; 6; 7; 3])
      Toy.letters "abc" None None None None Toy.no_kwargs tt O = Ok (s, st)
    /\ exists m,
         max_length (config s) = Some m
         /\ Z.of_nat (forward_calls
                        (Toy.run_scripted Toy.letters (Toy.greedy (Some 5) None)
                           [5; 6; 7; 3] None Toy.no_kwargs 10 "abc"))
            <= Z.max 1 (m - Z.of_nat (input_length s))
         /\ (Z.max 1 (m - Z.of_nat (input_length s)) <= Z.of_nat 10 ->
             outcome (Toy.run_scripted Toy.letters (Toy.greedy (Some 5) None)
                        [5; 6; 7; 3] None Toy.no_kwargs 10 "abc") <> RUNNING).
Proof.
  eexists. eexists. split; [reflexivity|].
  eapply (passes_bounded_by_max_length unit nat Toy.keep Toy.draw
           (Toy.scripted (Toy.greedy (Some 5) None) 3 [5; 6; 7; 3])
           Toy.letters 10 "abc"%string None None None None Toy.no_kwargs tt O).
  reflexivity.
Defined.

(** C4 as stated does not hold: with a prompt of three tokens and
    [max_length] 3 the run makes one forward pass and one emission
    before it stops, while [max_length - prompt_length] is 0. *)
Lemma one_pass_when_prompt_fills_max_length :
  (exists s st,
      prepare unit nat (Toy.scripted (Toy.greedy (Some 3) None) 3 [5; 6])
        Toy.letters "abc" None None None None Toy.no_kwargs tt O = Ok (s, st)
      /\ max_length (config s) = Some 3
      /\ input_length s = 3%nat)
  /\ outcome (Toy.run_scripted Toy.letters (Toy.greedy (Some 3) None)
                [5; 6] None Toy.no_kwargs 10 "abc") = STOPPED
  /\ forward_calls (Toy.run_scripted Toy.letters (Toy.greedy (Some 3) None)
                      [5; 6] None Toy.no_kwargs 10 "abc") = 1%nat
  /\ ~ (Z.of_nat (forward_calls
                    (Toy.run_scripted Toy.letters (Toy.greedy (Some 3) None)
                       [5; 6] None Toy.no_kwargs 10 "abc")) <= 3 - 3).
Proof.
  split; [eexists; eexists; split; [reflexivity|split; reflexivity]|].
  split; [reflexivity|]. split; [reflexivity|]. cbn. lia.
Qed.

Lemma greedy_runs_agree_witness :
  generate_interactive unit nat Toy.keep Toy.draw
    (Toy.scripted (Toy.greedy (Some 20) None) 3 [5; 6; 2]) Toy.letters
    10 "abc" None None None (Some 92542) Toy.no_kwargs tt 0%nat
  = generate_interactive unit nat Toy.keep Toy.draw
      (Toy.scripted (Toy.greedy (Some 20) None) 3 [5; 6; 2]) Toy.letters
      10 "abc" None None None (Some 92542) Toy.no_kwargs tt 7%nat.
Proof.
  apply (greedy_runs_agree unit nat Toy.keep Toy.draw
           (Toy.scripted (Toy.greedy (Some 20) None) 3 [5; 6; 2]) Toy.letters
           10 "abc"%string None None None (Some 92542) Toy.no_kwargs tt
           0%nat 7%nat).
  reflexivity.
Defined.

(** C3 at the failing input. The model's end-of-sequence id is 2 and the
    caller adds 92542, as [get_response] does. The first selected token
    is 2, a member of the configured ids, and the run does not stop: the
    stripping loop drops the token for the id 2, reads the last item of
    the now empty list for the id 92542, and the run ends with
    [IndexError]. *)
Theorem first_token_eos_does_not_stop :
  normalise_eos (eos_token_id (Toy.greedy (Some 20) None)) (Some 92542)
  = Ok (Some [2; 92542])
  /\ is_eos [2; 92542] 2 = true
  /\ strip_eos [2; 92542] [2] = Raise IndexError
  /\ outcome (Toy.run_scripted Toy.letters (Toy.greedy (Some 20) None)
                [2] (Some 92542) Toy.no_kwargs 10 "abc") = FAILED IndexError
  /\ outcome (Toy.run_scripted Toy.letters (Toy.greedy (Some 20) None)
                [2] (Some 92542) Toy.no_kwargs 10 "abc") <> STOPPED.
Proof.
  repeat split; try reflexivity. discriminate.
Qed.

(** C9 at the failing input. With the end-of-sequence ids 2 and 92542
    held as a list by the configuration, a run whose first selected
    token is 2 makes its forward pass and ends with [IndexError] before
    the first [yield]: it has no emission. *)
Theorem first_token_eos_yields_nothing :
  emissions (Toy.run_scripted Toy.letters
               {| max_length := Some 32768; max_new_tokens := None;
                  do_sample := false; bos_token_id := Some 1;
                  eos_token_id := EosList [2; 92542] |}
               [2; 5] None Toy.no_kwargs 10 "hi") = []
  /\ forward_calls (Toy.run_scripted Toy.letters
                      {| max_length := Some 32768; max_new_tokens := None;
                         do_sample := false; bos_token_id := Some 1;
                         eos_token_id := EosList [2; 92542] |}
                      [2; 5] None Toy.no_kwargs 10 "hi") = 1%nat
  /\ outcome (Toy.run_scripted Toy.letters
                {| max_length := Some 32768; max_new_tokens := None;
                   do_sample := false; bos_token_id := Some 1;
                   eos_token_id := EosList [2; 92542] |}
                [2; 5] None Toy.no_kwargs 10 "hi") = FAILED IndexError.
Proof.
  repeat split; reflexivity.
Qed.

End ToyRuns.

(** ** Further properties of the decoder *)

Section StripFacts.

Import Decoder.
Local Open Scope list_scope.
Local Open Scope Z_scope.

Lemma strip_eos_nil (eosl : list Z) :
  strip_eos eosl [] = match eosl with
                      | [] => Ok []
                      | _ :: _ => Raise IndexError
                      end.
Proof.
  destruct eosl; reflexivity.
Qed.

Lemma in_removelast_cons (e tok : Z) (rest : list Z) :
  In tok (removelast (e :: rest))
  <-> rest <> [] /\ (e = tok \/ In tok (removelast rest)).
Proof.
  destruct rest as [|y rest].
  - cbn. split; [tauto|]. intros [H _]. congruence.
  - change (removelast (e :: y :: rest)) with (e :: removelast (y :: rest)).
    cbn [In]. split; [intros H; split; [discriminate|exact H]|tauto].
Qed.

(** The stripping loop on an output of one token raises exactly when
    the token is one of the end-of-sequence ids other than the last of
    the list: the loop empties the output and then reads its last item
    for the next id. *)
Theorem strip_eos_first_token_raises_iff (eosl : list Z) (tok : Z) :
  strip_eos eosl [tok] = Raise IndexError <-> In tok (removelast eosl).
Proof.
  induction eosl as [|e rest IH].
  - cbn. split; [discriminate|tauto].
  - rewrite in_removelast_cons. cbn [strip_eos last_item last bind].
    destruct (tok =? e) eqn:He.
    + apply Z.eqb_eq in He. subst e. cbn [removelast].
      rewrite strip_eos_nil. destruct rest as [|y rest].
      * split; [discriminate|]. intros [H _]. congruence.
      * split; [intros _; split; [discriminate|now left]|reflexivity].
    + apply Z.eqb_neq in He. rewrite IH. split.
      * intros H. split; [|now right]. intros ->. exact H.
      * intros [_ [H|H]]; [congruence|exact H].
Qed.

(** Once a token that is no end-of-sequence id has been generated, the
    stripping loop returns whatever token comes next. *)
Lemma strip_eos_after_first (eosl : list Z) :
  forall gen tok,
    gen <> [] -> is_eos eosl (last gen 0) = false ->
    strip_eos eosl (gen ++ [tok]) = Ok (strip_single eosl (gen ++ [tok])).
Proof.
  intros gen tok Hne Hlast.
  destruct (strip_eos eosl (gen ++ [tok])) as [out|e] eqn:Hstrip.
  - f_equal. apply strip_eos_single; [now right|exact Hstrip].
  - exfalso. revert gen Hne Hlast Hstrip.
    induction eosl as [|x rest IH]; intros gen Hne Hlast Hstrip;
      [discriminate|].
    cbn [strip_eos] in Hstrip. rewrite last_item_snoc in Hstrip.
    cbn [bind] in Hstrip.
    unfold is_eos in Hlast. cbn [existsb] in Hlast.
    apply orb_false_iff in Hlast. destruct Hlast as [_ Hlast].
    destruct (tok =? x).
    + rewrite removelast_last in Hstrip.
      rewrite strip_eos_clean in Hstrip; [discriminate|exact Hne|exact Hlast].
    + exact (IH gen Hne Hlast Hstrip).
Qed.

End StripFacts.

Section ResolutionFacts.

Import Decoder.
Local Open Scope list_scope.
Local Open Scope Z_scope.

(** Without [max_new_tokens] the configured [max_length] is the cap as
    it stands, and the deprecation warning about the default is given
    exactly when the call passed no [max_length] of its own; the
    both-are-set diagnostic is not given. *)
Theorem max_length_alone_is_kept
    (kw : kwargs) (c : GenerationConfig) (m p : Z) :
  max_new_tokens c = None ->
  max_length c = Some m ->
  exists diags,
    resolve_max_length kw c p = Ok (c, diags)
    /\ (In DefaultMaxLengthDeprecated diags
        <-> kwargs_get (kw_max_length kw) = None)
    /\ ~ In BothLengthsSet diags.
Proof.
  intros Hn Hm. unfold resolve_max_length. rewrite Hn, Hm.
  cbn [is_some is_none andb]. rewrite !andb_true_r.
  destruct (kwargs_get (kw_max_length kw)) as [x|]; cbn [is_none];
    rewrite Hm; eexists; (split; [reflexivity|]); split.
  - split; [|discriminate].
    destruct (p >=? m); cbn; intros H;
      repeat (destruct H as [H|H]; try discriminate H); contradiction.
  - destruct (p >=? m); cbn; intros H;
      repeat (destruct H as [H|H]; try discriminate H); contradiction.
  - split; [reflexivity|]. intros _. now left.
  - destruct (p >=? m); cbn; intros H;
      repeat (destruct H as [H|H]; try discriminate H); contradiction.
Qed.

Lemma max_length_alone_is_kept_witness :
  exists diags,
    resolve_max_length
      {| kw_max_length := Some (Some 32768);
         kw_max_new_tokens := None; kw_do_sample := None |}
      (Toy.greedy (Some 32768) None) 40 = Ok (Toy.greedy (Some 32768) None, diags)
    /\ (In DefaultMaxLengthDeprecated diags
        <-> kwargs_get (Some (Some 32768)) = None)
    /\ ~ In BothLengthsSet diags.
Proof.
  exact (max_length_alone_is_kept
           {| kw_max_length := Some (Some 32768);
              kw_max_new_tokens := None; kw_do_sample := None |}
           (Toy.greedy (Some 32768) None) 32768 40 eq_refl eq_refl).
Defined.

(** A resolution that succeeds leaves a cap, and the diagnostic about
    the input length is given exactly when the prompt is at least as
    long as the cap; with [max_new_tokens] set that is exactly when
    [max_new_tokens] is zero or negative. *)
Theorem input_length_diagnostic_iff
    (kw : kwargs) (c c' : GenerationConfig) (p : Z)
    (diags : list diagnostic) :
  resolve_max_length kw c p = Ok (c', diags) ->
  exists m,
    max_length c' = Some m
    /\ (In InputNotShorterThanMaxLength diags <-> m <= p)
    /\ (forall n, max_new_tokens c = Some n ->
                  (In InputNotShorterThanMaxLength diags <-> n <= 0)).
Proof.
  unfold resolve_max_length.
  destruct (is_none (kwargs_get (kw_max_length kw)) && is_some (max_length c))
    eqn:Hdef;
    destruct (max_new_tokens c) as [n|] eqn:Hn;
    cbn [is_none andb negb set_max_length max_length];
    try (destruct (max_length c) as [m|] eqn:Hm; [|discriminate]).
  all: intros H; inversion H; subst; clear H.
  all: cbn [max_length set_max_length].
  all: try rewrite Hm.
  all: eexists; split; [reflexivity|].
  all: split; [|intros n' Hn'; inversion Hn'; subst].
  all: match goal with
       | |- context [?a >=? ?b] =>
           destruct (Z.geb_spec a b) as [Hge|Hlt]
       end.
  all: cbn; split; intros H; try lia; auto.
  all: repeat (destruct H as [H|H]; try discriminate H); try tauto.
Qed.

Lemma input_length_diagnostic_iff_witness :
  exists m,
    max_length (set_max_length (Toy.greedy None (Some 0)) (0 + 10)) = Some m
    /\ (In InputNotShorterThanMaxLength
           [BothLengthsSet; InputNotShorterThanMaxLength] <-> m <= 10)
    /\ (forall n, max_new_tokens (Toy.greedy None (Some 0)) = Some n ->
                  (In InputNotShorterThanMaxLength
                      [BothLengthsSet; InputNotShorterThanMaxLength]
                   <-> n <= 0)).
Proof.
  exact (input_length_diagnostic_iff Toy.no_kwargs
           (Toy.greedy None (Some 0)) _ 10 _ eq_refl).
Defined.

End ResolutionFacts.

Section RunFacts.

Import Decoder.
Local Open Scope list_scope.
Local Open Scope Z_scope.

Variables MK RNG : Type.
Variable softmax : list Q -> list Q.
Variable multinomial : RNG -> list Q -> Z * RNG.
Variable model : Model MK.
Variable tokenizer : Tokenizer.

Local Abbreviation step := (step MK RNG softmax multinomial model tokenizer).
Local Abbreviation loop := (loop MK RNG softmax multinomial model tokenizer).
Local Abbreviation prepare := (prepare MK RNG model tokenizer).
Local Abbreviation generate_interactive :=
  (generate_interactive MK RNG softmax multinomial model tokenizer).

(** *** Tokens, emissions and passes *)

Lemma loop_accounts (s : setup) :
  forall (fuel : nat) (st : state MK RNG),
    exists new,
      token_ids (loop fuel s st) = input_ids MK RNG st ++ new
      /\ length new = length (emissions (loop fuel s st))
      /\ match outcome (loop fuel s st) with
         | FAILED _ =>
             forward_calls (loop fuel s st)
             = S (length (emissions (loop fuel s st)))
         | _ =>
             forward_calls (loop fuel s st)
             = length (emissions (loop fuel s st))
         end.
Proof.
  induction fuel as [|fuel IH]; intros st.
  - exists []. cbn. now rewrite app_nil_r.
  - cbn [Decoder.loop].
    destruct (step s st) as [[response st']|e] eqn:Hstep.
    + destruct (step_yields _ _ _ _ _ _ _ _ _ _ Hstep)
        as (tok & _ & _ & _ & _ & Hids & _).
      destruct (finished MK RNG s st').
      * exists [tok]. cbn. now rewrite Hids.
      * destruct (IH st') as (new & Htok & Hlen & Hcalls).
        exists (tok :: new). cbn [token_ids emissions forward_calls outcome].
        rewrite Htok, Hids, <- app_assoc. split; [reflexivity|].
        cbn [length]. split; [now rewrite Hlen|].
        destruct (outcome (loop fuel s st')); now rewrite Hcalls.
    + exists []. cbn. now rewrite app_nil_r.
Qed.

(** A run never alters the prompt and adds exactly one token for every
    text it emits; it makes one forward pass per emission, and one more
    when it ends with an exception raised inside the loop. *)
Theorem run_accounts_for_tokens
    (fuel : nat) (prompt : string) (carg : option GenerationConfig)
    (lp : option (list processor)) (sc : option (list criterion))
    (additional : option Z) (kw : kwargs) (mk : MK) (g : RNG)
    (s : setup) (st : state MK RNG) :
  prepare prompt carg lp sc additional kw mk g = Ok (s, st) ->
  exists new,
    token_ids (generate_interactive fuel prompt carg lp sc additional
                 kw mk g) = encode tokenizer prompt ++ new
    /\ length new
       = length (emissions (generate_interactive fuel prompt carg lp sc
                              additional kw mk g))
    /\ match outcome (generate_interactive fuel prompt carg lp sc
                        additional kw mk g) with
       | FAILED _ =>
           forward_calls (generate_interactive fuel prompt carg lp sc
                            additional kw mk g)
           = S (length new)
       | _ =>
           forward_calls (generate_interactive fuel prompt carg lp sc
                            additional kw mk g)
           = length new
       end.
Proof.
  intros Hprep. unfold Decoder.generate_interactive. rewrite Hprep.
  destruct (prepare_start MK RNG model tokenizer _ _ _ _ _ _ _ _ _ _ Hprep)
    as (Hids & _).
  destruct (loop_accounts s fuel st) as (new & Htok & Hlen & Hcalls).
  exists new. rewrite <- Hids. split; [exact Htok|].
  split; [exact Hlen|]. now rewrite Hlen.
Qed.

(** *** Why a run stops *)

Lemma loop_stop_reason (s : setup) :
  forall (fuel : nat) (st : state MK RNG),
    unfinished_sequences MK RNG st = 1 ->
    match outcome (loop fuel s st) with
    | STOPPED =>
        emissions (loop fuel s st) <> []
        /\ (is_eos (eos_ids (eos s)) (last (token_ids (loop fuel s st)) 0)
            = true
            \/ call_criteria (stopping_criteria s)
                 (token_ids (loop fuel s st)) = true)
    | RUNNING =>
        (emissions (loop fuel s st) = []
         /\ token_ids (loop fuel s st) = input_ids MK RNG st)
        \/ (emissions (loop fuel s st) <> []
            /\ is_eos (eos_ids (eos s))
                 (last (token_ids (loop fuel s st)) 0) = false
            /\ call_criteria (stopping_criteria s)
                 (token_ids (loop fuel s st)) = false)
    | FAILED _ => True
    end.
Proof.
  induction fuel as [|fuel IH]; intros st Hunf.
  - cbn. now left.
  - cbn [Decoder.loop].
    destruct (step s st) as [[response st']|e] eqn:Hstep; [|exact I].
    destruct (step_yields _ _ _ _ _ _ _ _ _ _ Hstep)
      as (tok & eosl & out & Heos & _ & Hids & Hunf' & _).
    rewrite Hunf in Hunf'. rewrite Heos. cbn [eos_ids].
    destruct (finished MK RNG s st') eqn:Hfin.
    + cbn [outcome emissions token_ids]. split; [discriminate|].
      apply finished_is_disjunction in Hfin. destruct Hfin as [H0|Hc].
      * left. rewrite Hids, last_last.
        destruct (is_eos eosl tok); [reflexivity|]. rewrite Hunf' in H0. lia.
      * right. unfold call_criteria. now apply existsb_exists.
    + cbn [outcome emissions token_ids].
      unfold finished in Hfin. apply orb_false_iff in Hfin.
      destruct Hfin as [Hu Hc]. apply Z.eqb_neq in Hu.
      assert (Htok : is_eos eosl tok = false).
      { destruct (is_eos eosl tok); [|reflexivity]. rewrite Hunf' in Hu. lia. }
      assert (Hunf1 : unfinished_sequences MK RNG st' = 1).
      { rewrite Hunf', Htok. reflexivity. }
      specialize (IH st' Hunf1). rewrite Heos in IH. cbn [eos_ids] in IH.
      destruct (outcome (loop fuel s st'));
        [|split; [discriminate|apply IH]|exact I].
      right. split; [discriminate|].
      destruct IH as [[_ Hsame]|[_ Hlater]]; [|exact Hlater].
      rewrite Hsame. split; [|exact Hc].
      now rewrite Hids, last_last.
Qed.

(** A run that has stopped has emitted at least once, and it has
    stopped for a reason: its last token is one of the end-of-sequence
    ids, or one of the stopping criteria holds of its token sequence. *)
Theorem stopped_for_a_reason
    (fuel : nat) (prompt : string) (carg : option GenerationConfig)
    (lp : option (list processor)) (sc : option (list criterion))
    (additional : option Z) (kw : kwargs) (mk : MK) (g : RNG)
    (s : setup) (st : state MK RNG) :
  prepare prompt carg lp sc additional kw mk g = Ok (s, st) ->
  outcome (generate_interactive fuel prompt carg lp sc additional kw mk g)
  = STOPPED ->
  emissions (generate_interactive fuel prompt carg lp sc additional kw mk g)
  <> []
  /\ (is_eos (eos_ids (eos s))
        (last (token_ids (generate_interactive fuel prompt carg lp sc
                            additional kw mk g)) 0) = true
      \/ call_criteria (stopping_criteria s)
           (token_ids (generate_interactive fuel prompt carg lp sc
                         additional kw mk g)) = true).
Proof.
  intros Hprep. unfold Decoder.generate_interactive. rewrite Hprep.
  destruct (prepare_start MK RNG model tokenizer _ _ _ _ _ _ _ _ _ _ Hprep)
    as (_ & _ & Hunf & _).
  intros Hout. pose proof (loop_stop_reason s fuel st Hunf) as H.
  now rewrite Hout in H.
Qed.

(** A run that is still in the loop after an emission is there because
    no stop source holds: its last token is no end-of-sequence id and
    no stopping criterion holds of its token sequence. *)
Theorem running_means_no_stop_source
    (fuel : nat) (prompt : string) (carg : option GenerationConfig)
    (lp : option (list processor)) (sc : option (list criterion))
    (additional : option Z) (kw : kwargs) (mk : MK) (g : RNG)
    (s : setup) (st : state MK RNG) :
  prepare prompt carg lp sc additional kw mk g = Ok (s, st) ->
  outcome (generate_interactive fuel prompt carg lp sc additional kw mk g)
  = RUNNING ->
  emissions (generate_interactive fuel prompt carg lp sc additional kw mk g)
  <> [] ->
  is_eos (eos_ids (eos s))
    (last (token_ids (generate_interactive fuel prompt carg lp sc
                        additional kw mk g)) 0) = false
  /\ call_criteria (stopping_criteria s)
       (token_ids (generate_interactive fuel prompt carg lp sc
                     additional kw mk g)) = false.
Proof.
  intros Hprep. unfold Decoder.generate_interactive. rewrite Hprep.
  destruct (prepare_start MK RNG model tokenizer _ _ _ _ _ _ _ _ _ _ Hprep)
    as (_ & _ & Hunf & _).
  intros Hout Hem. pose proof (loop_stop_reason s fuel st Hunf) as H.
  rewrite Hout in H. destruct H as [[H _]|[_ H]]; [congruence|exact H].
Qed.

(** *** End-of-sequence ids among the generated tokens *)

Lemma run_emissions
    (fuel : nat) (prompt : string) (carg : option GenerationConfig)
    (lp : option (list processor)) (sc : option (list criterion))
    (additional : option Z) (kw : kwargs) (mk : MK) (g : RNG)
    (s : setup) (st : state MK RNG) :
  prepare prompt carg lp sc additional kw mk g = Ok (s, st) ->
  exists new,
    skipn (input_length s)
      (token_ids (generate_interactive fuel prompt carg lp sc additional
                    kw mk g)) = new
    /\ length (emissions (generate_interactive fuel prompt carg lp sc
                            additional kw mk g)) = length new
    /\ (forall k, (S k < length new)%nat ->
                  is_eos (eos_ids (eos s)) (nth k new 0) = false)
    /\ (forall k, (k < length new)%nat ->
                  nth k (emissions (generate_interactive fuel prompt carg lp
                                      sc additional kw mk g)) ""%string
                  = decode tokenizer
                      (strip_single (eos_ids (eos s)) (firstn (S k) new))).
Proof.
  intros Hprep. unfold Decoder.generate_interactive. rewrite Hprep.
  destruct (prepare_start MK RNG model tokenizer _ _ _ _ _ _ _ _ _ _ Hprep)
    as (Hids & Hlen & Hunf & _).
  destruct (eos s) as [eosl|] eqn:Heos.
  - destruct (loop_emissions MK RNG softmax multinomial model tokenizer
                s eosl (encode tokenizer prompt) Heos Hlen fuel st [])
      as (new & Htok & Hem & Hclean & Hnth);
      [now rewrite app_nil_r|exact Hunf|constructor|].
    exists new. cbn [app eos_ids] in *.
    rewrite Htok, Hlen, skipn_prompt. auto.
  - pose proof (loop_accounts s fuel st) as (new & Htok & Hnew & _).
    rewrite (loop_without_eos MK RNG softmax multinomial model tokenizer
               s Heos) in *.
    destruct new; [|discriminate]. exists [].
    rewrite Htok, app_nil_r, Hids, Hlen, skipn_all.
    repeat split; intros k Hk; cbn in Hk; lia.
Qed.

(** Among the tokens a run has generated only the last can be an
    end-of-sequence id: the run never goes on after one. *)
Theorem only_last_token_can_be_eos
    (fuel : nat) (prompt : string) (carg : option GenerationConfig)
    (lp : option (list processor)) (sc : option (list criterion))
    (additional : option Z) (kw : kwargs) (mk : MK) (g : RNG)
    (s : setup) (st : state MK RNG) (k : nat) :
  prepare prompt carg lp sc additional kw mk g = Ok (s, st) ->
  (S k < length (skipn (input_length s)
                   (token_ids (generate_interactive fuel prompt carg lp sc
                                 additional kw mk g))))%nat ->
  is_eos (eos_ids (eos s))
    (nth k (skipn (input_length s)
              (token_ids (generate_interactive fuel prompt carg lp sc
                            additional kw mk g))) 0) = false.
Proof.
  intros Hprep.
  destruct (run_emissions fuel _ _ _ _ _ _ _ _ _ _ Hprep)
    as (new & -> & _ & Hclean & _).
  apply Hclean.
Qed.

(** When the token of a pass that yields is an end-of-sequence id, the
    text of that pass is the text of the pass before it, and the
    decoding of no tokens at all when it is the first pass: the id adds
    nothing to what the caller sees. *)
Theorem eos_pass_repeats_previous_text
    (fuel : nat) (prompt : string) (carg : option GenerationConfig)
    (lp : option (list processor)) (sc : option (list criterion))
    (additional : option Z) (kw : kwargs) (mk : MK) (g : RNG)
    (s : setup) (st : state MK RNG) (k : nat) :
  prepare prompt carg lp sc additional kw mk g = Ok (s, st) ->
  (k < length (emissions (generate_interactive fuel prompt carg lp sc
                            additional kw mk g)))%nat ->
  is_eos (eos_ids (eos s))
    (nth k (skipn (input_length s)
              (token_ids (generate_interactive fuel prompt carg lp sc
                            additional kw mk g))) 0) = true ->
  nth k (emissions (generate_interactive fuel prompt carg lp sc
                      additional kw mk g)) ""%string
  = match k with
    | O => decode tokenizer []
    | S j => nth j (emissions (generate_interactive fuel prompt carg lp sc
                                 additional kw mk g)) ""%string
    end.
Proof.
  intros Hprep.
  destruct (run_emissions fuel _ _ _ _ _ _ _ _ _ _ Hprep)
    as (new & -> & -> & Hclean & Hnth).
  intros Hk Heos. rewrite (Hnth k Hk).
  rewrite (firstn_snoc new k Hk), strip_single_snoc, Heos.
  destruct k as [|j]; [reflexivity|].
  rewrite (Hnth j) by lia.
  rewrite (firstn_snoc new j) by lia.
  rewrite strip_single_snoc, Hclean by lia. reflexivity.
Qed.

(** *** Exceptions inside the loop *)


Local Abbreviation never_empty := (Runs.never_empty MK softmax model).

Lemma next_tokens_total (s : setup) (st : state MK RNG) :
  never_empty s ->
  exists tok g,
    next_tokens RNG multinomial (do_sample (config s)) (rng MK RNG st)
      (softmax (logits_warper s (input_ids MK RNG st)
                  (logits_processor s (input_ids MK RNG st)
                     (fst (forward MK model (model_kwargs MK RNG st)
                             (input_ids MK RNG st))))))
    = Ok (tok, g).
Proof.
  intros [Hs|Hne]; unfold next_tokens.
  - rewrite Hs. destruct (multinomial _ _) as [tok g]. now exists tok, g.
  - specialize (Hne (model_kwargs MK RNG st) (input_ids MK RNG st)).
    destruct (do_sample (config s)).
    + destruct (multinomial _ _) as [tok g]. now exists tok, g.
    + destruct (softmax _) as [|x rest]; [congruence|].
      cbn. eauto.
Qed.

(** After a first token that is no end-of-sequence id, a pass yields. *)
Lemma step_yields_after_first (s : setup) (eosl ids0 gen : list Z)
    (st : state MK RNG) :
  never_empty s ->
  eos s = Some eosl -> eosl <> [] ->
  input_length s = length ids0 ->
  input_ids MK RNG st = ids0 ++ gen ->
  gen <> [] ->
  Forall (fun t => is_eos eosl t = false) gen ->
  exists response st', step s st = Ok (response, st').
Proof.
  intros Hne Heos Hnil Hlen Hids Hgen Hclean.
  destruct (next_tokens_total s st Hne) as (tok & g & Hnext).
  unfold Decoder.step.
  destruct (forward MK model _ _) as [logits mk'] eqn:Hfw.
  cbn [fst] in Hnext. rewrite Hnext. cbn [bind].
  rewrite Heos. cbn [iterate bind].
  rewrite py_min_differs by exact Hnil. cbn [bind].
  rewrite Hids, <- app_assoc, Hlen, skipn_prompt.
  rewrite strip_eos_after_first; [cbn [bind]; eauto|exact Hgen|].
  destruct (last_not_eos eosl gen Hclean) as [H|H]; [congruence|exact H].
Qed.

Lemma loop_never_fails_after_first (s : setup) (eosl ids0 : list Z) :
  never_empty s ->
  eos s = Some eosl -> eosl <> [] ->
  input_length s = length ids0 ->
  forall (fuel : nat) (st : state MK RNG) (gen : list Z),
    input_ids MK RNG st = ids0 ++ gen ->
    gen <> [] ->
    unfinished_sequences MK RNG st = 1 ->
    Forall (fun t => is_eos eosl t = false) gen ->
    forall e, outcome (loop fuel s st) <> FAILED e.
Proof.
  intros Hne Heos Hnil Hlen.
  induction fuel as [|fuel IH]; intros st gen Hids Hgen Hunf Hclean e;
    [discriminate|].
  cbn [Decoder.loop].
  destruct (step_yields_after_first s eosl ids0 gen st
              Hne Heos Hnil Hlen Hids Hgen Hclean)
    as (response & st' & Hstep).
  rewrite Hstep.
  destruct (finished MK RNG s st') eqn:Hfin; [discriminate|].
  cbn [outcome].
  destruct (step_yields _ _ _ _ _ _ _ _ _ _ Hstep)
    as (tok & eosl' & out & Heos' & _ & Hids' & Hunf' & _).
  rewrite Heos in Heos'. inversion Heos'; subst eosl'.
  unfold finished in Hfin. apply orb_false_iff in Hfin.
  destruct Hfin as [Hu _]. apply Z.eqb_neq in Hu.
  rewrite Hunf in Hunf'.
  assert (Htok : is_eos eosl tok = false).
  { destruct (is_eos eosl tok); [|reflexivity]. rewrite Hunf' in Hu. lia. }
  apply (IH st' (gen ++ [tok])).
  - now rewrite Hids', Hids, <- app_assoc.
  - destruct gen; discriminate.
  - now rewrite Hunf', Htok.
  - apply Forall_app. split; [exact Hclean|]. now constructor.
Qed.


(** *** Which exceptions a run can end with *)

Lemma strip_eos_raises (eosl : list Z) :
  forall out e, strip_eos eosl out = Raise e -> e = IndexError.
Proof.
  induction eosl as [|x rest IH]; intros out e H; [discriminate|].
  cbn [strip_eos] in H. destruct out as [|y out].
  - cbn in H. now inversion H.
  - rewrite last_item_cons in H. cbn [bind] in H. exact (IH _ _ H).
Qed.

Lemma step_raises (s : setup) (st : state MK RNG) (e : exception) :
  step s st = Raise e -> e = IndexError \/ e = TypeError \/ e = ValueError.
Proof.
  unfold Decoder.step.
  destruct (forward MK model _ _) as [logits mk'].
  destruct (next_tokens RNG multinomial _ _ _) as [[tok g']|e'] eqn:Hnext;
    cbn [bind].
  - destruct (eos s) as [eosl|]; cbn [iterate bind];
      [|intros H; inversion H; auto].
    destruct (py_min _) as [differs|e'] eqn:Hmin; cbn [bind].
    + destruct (strip_eos eosl _) as [out|e'] eqn:Hstrip; cbn [bind];
        [discriminate|].
      intros H. inversion H; subst. left.
      exact (strip_eos_raises _ _ _ Hstrip).
    + intros H. inversion H; subst.
      destruct eosl; cbn in Hmin; [inversion Hmin; auto|discriminate].
  - intros H. inversion H; subst. unfold next_tokens in Hnext.
    destruct (do_sample (config s)); [discriminate|].
    destruct (argmax _) as [i|e'] eqn:Harg; cbn [bind] in Hnext;
      [discriminate|].
    inversion Hnext; subst. unfold argmax in Harg.
    destruct (softmax _); inversion Harg. auto.
Qed.

Lemma loop_raises (s : setup) :
  forall (fuel : nat) (st : state MK RNG) (e : exception),
    outcome (loop fuel s st) = FAILED e ->
    e = IndexError \/ e = TypeError \/ e = ValueError.
Proof.
  induction fuel as [|fuel IH]; intros st e; [discriminate|].
  cbn [Decoder.loop].
  destruct (step s st) as [[response st']|e'] eqn:Hstep.
  - destruct (finished MK RNG s st'); [discriminate|].
    cbn [outcome]. apply IH.
  - cbn [outcome]. intros H. inversion H; subst.
    exact (step_raises _ _ _ Hstep).
Qed.

Lemma prepare_raises
    (prompt : string) (carg : option GenerationConfig)
    (lp : option (list processor)) (sc : option (list criterion))
    (additional : option Z) (kw : kwargs) (mk : MK) (g : RNG)
    (e : exception) :
  prepare prompt carg lp sc additional kw mk g = Raise e ->
  e = AttributeError \/ e = TypeError.
Proof.
  unfold Decoder.prepare.
  destruct (normalise_eos _ _) as [x|e'] eqn:Hnorm; cbn [bind].
  - destruct (resolve_max_length _ _ _) as [[c' diags]|e'] eqn:Hres;
      cbn [bind]; [discriminate|].
    intros H. inversion H; subst. right.
    unfold resolve_max_length in Hres.
    destruct (if _ && _ then _ else _) as [c0 d0].
    destruct (max_length c0); [discriminate|now inversion Hres].
  - intros H. inversion H; subst. left.
    exact (normalise_eos_raises _ _ _ Hnorm).
Qed.

Lemma run_stopped_emits
    (fuel : nat) (prompt : string) (carg : option GenerationConfig)
    (lp : option (list processor)) (sc : option (list criterion))
    (additional : option Z) (kw : kwargs) (mk : MK) (g : RNG) :
  outcome (generate_interactive fuel prompt carg lp sc additional kw mk g)
  = STOPPED ->
  emissions (generate_interactive fuel prompt carg lp sc additional kw mk g)
  <> [].
Proof.
  unfold Decoder.generate_interactive.
  destruct (prepare prompt carg lp sc additional kw mk g)
    as [[s st]|e'] eqn:Hprep; [|discriminate].
  destruct (prepare_start MK RNG model tokenizer _ _ _ _ _ _ _ _ _ _ Hprep)
    as (_ & _ & Hunf & _).
  intros Hout. pose proof (loop_stop_reason s fuel st Hunf) as H.
  rewrite Hout in H. apply H.
Qed.

Lemma run_not_runtime_error
    (fuel : nat) (prompt : string) (carg : option GenerationConfig)
    (lp : option (list processor)) (sc : option (list criterion))
    (additional : option Z) (kw : kwargs) (mk : MK) (g : RNG) :
  outcome (generate_interactive fuel prompt carg lp sc additional kw mk g)
  <> FAILED RuntimeError.
Proof.
  unfold Decoder.generate_interactive.
  destruct (prepare prompt carg lp sc additional kw mk g)
    as [[s st]|e'] eqn:Hprep.
  - intros Hout. apply loop_raises in Hout.
    destruct Hout as [H|[H|H]]; discriminate H.
  - cbn. intros H. inversion H; subst.
    apply prepare_raises in Hprep. destruct Hprep as [H'|H']; discriminate H'.
Qed.

Lemma run_bounded
    (fuel : nat) (prompt : string) (carg : option GenerationConfig)
    (lp : option (list processor)) (sc : option (list criterion))
    (additional : option Z) (kw : kwargs) (mk : MK) (g : RNG)
    (s : setup) (st : state MK RNG) (m : Z) :
  prepare prompt carg lp sc additional kw mk g = Ok (s, st) ->
  max_length (config s) = Some m ->
  Z.max 1 (m - Z.of_nat (length (encode tokenizer prompt))) <= Z.of_nat fuel ->
  outcome (generate_interactive fuel prompt carg lp sc additional kw mk g)
  <> RUNNING.
Proof.
  intros Hprep Hm Hfuel. unfold Decoder.generate_interactive. rewrite Hprep.
  destruct (prepare_start MK RNG model tokenizer _ _ _ _ _ _ _ _ _ _ Hprep)
    as (Hids & _ & _ & _ & _ & m' & user & Hm' & Hsc).
  rewrite Hm in Hm'. inversion Hm'; subst m'.
  apply (loop_bounded MK RNG softmax multinomial model tokenizer
           s m user Hsc fuel st).
  now rewrite Hids.
Qed.

(** *** What each pass emits *)

(** A run that is still in the loop after a token has been generated
    has emitted once per pass, and the next pass emits as well. *)
Lemma loop_next_pass (s : setup) (eosl ids0 : list Z) :
  never_empty s ->
  eos s = Some eosl -> eosl <> [] ->
  input_length s = length ids0 ->
  forall (fuel : nat) (st : state MK RNG) (gen : list Z),
    input_ids MK RNG st = ids0 ++ gen ->
    gen <> [] ->
    unfinished_sequences MK RNG st = 1 ->
    Forall (fun t => is_eos eosl t = false) gen ->
    outcome (loop fuel s st) = RUNNING ->
    length (emissions (loop (S fuel) s st)) = S fuel.
Proof.
  intros Hne Heos Hnil Hlen.
  induction fuel as [|fuel IH]; intros st gen Hids Hgen Hunf Hclean Hout;
    destruct (step_yields_after_first s eosl ids0 gen st
                Hne Heos Hnil Hlen Hids Hgen Hclean)
      as (response & st' & Hstep).
  - cbn [Decoder.loop]. rewrite Hstep.
    destruct (finished MK RNG s st'); reflexivity.
  - cbn [Decoder.loop] in Hout. rewrite Hstep in Hout.
    destruct (finished MK RNG s st') eqn:Hfin; [discriminate|].
    cbn [outcome] in Hout.
    destruct (step_yields _ _ _ _ _ _ _ _ _ _ Hstep)
      as (tok & eosl' & out & Heos' & _ & Hids' & Hunf' & _).
    rewrite Heos in Heos'. inversion Heos'; subst eosl'.
    pose proof Hfin as Hu. unfold finished in Hu.
    apply orb_false_iff in Hu. destruct Hu as [Hu _].
    apply Z.eqb_neq in Hu. rewrite Hunf in Hunf'.
    assert (Htok : is_eos eosl tok = false).
    { destruct (is_eos eosl tok); [|reflexivity]. rewrite Hunf' in Hu. lia. }
    remember (S fuel) as passes eqn:Hpasses.
    cbn [Decoder.loop]. rewrite Hstep, Hfin. cbn [emissions length].
    f_equal. subst passes.
    apply (IH st' (gen ++ [tok])).
    + now rewrite Hids', Hids, <- app_assoc.
    + destruct gen; discriminate.
    + now rewrite Hunf', Htok.
    + apply Forall_app. split; [exact Hclean|]. now constructor.
    + exact Hout.
Qed.


End RunFacts.

(** ** The chat page *)

Section PageFacts.

Import Prompt App.
Local Open Scope list_scope.

Variables MK RNG : Type.
Variable softmax : list Q -> list Q.
Variable multinomial : RNG -> list Q -> Z * RNG.
Variable no_model_kwargs : MK.

Local Abbreviation get_response :=
  (get_response MK RNG softmax multinomial no_model_kwargs).
Local Abbreviation generate :=
  (Decoder.generate_interactive MK RNG softmax multinomial).

(** The texts written while streaming: every response but ["~"], with
    the cursor. *)
Local Abbreviation streamed := (fun responses : list string =>
  map (fun r => PlaceholderMarkdown (r ++ cursor)%string)
    (filter (fun r => negb (r =? "~")%string) responses)).

Lemma stream_spec (responses : list string) :
  forall (written : list ui) (cur_response : option string),
    stream responses written cur_response
    = (written ++ streamed responses,
       match responses with
       | [] => cur_response
       | _ :: _ => Some (last responses ""%string)
       end).
Proof.
  induction responses as [|r rest IH]; intros written cur_response.
  - cbn. now rewrite app_nil_r.
  - cbn [stream filter]. destruct (r =? "~")%string; cbn [negb map];
      rewrite IH; [|rewrite <- app_assoc]; cbn [app];
      (f_equal; destruct rest; reflexivity).
Qed.

(** The run [get_response] starts for a prompt text. *)
Local Abbreviation run_of := (fun fuel model tokenizer config g real_prompt =>
  generate model tokenizer fuel real_prompt None None None
    (Some 92542%Z) (asdict config) no_model_kwargs g).

(** [get_response] never reads [cur_response] unbound: when the
    generation ends by itself it has yielded at least one response. *)
Theorem get_response_never_unbound
    (fuel : nat) (prompt meta ua ra : string)
    (model : Decoder.Model MK) (tokenizer : Decoder.Tokenizer)
    (config : GenerationConfig) (first_input : bool) (g : RNG)
    (ss : session MK) :
  ended MK (get_response fuel prompt meta ua ra model tokenizer config
              first_input g ss) <> Raising UnboundLocalError.
Proof.
  unfold App.get_response.
  destruct (messages MK ss) as [msgs|]; [|discriminate].
  destruct (combine_history _ _ _ _) as [real_prompt|e]; [|discriminate].
  rewrite stream_spec. cbn [app].
  destruct (Decoder.outcome _) eqn:Hout; try discriminate.
  apply run_stopped_emits in Hout.
  destruct (Decoder.emissions _); [congruence|discriminate].
Qed.

Lemma get_response_returns
    (fuel : nat) (prompt meta ua ra : string)
    (model : Decoder.Model MK) (tokenizer : Decoder.Tokenizer)
    (config : GenerationConfig) (first_input : bool) (g : RNG)
    (ss : session MK) :
  ended MK (get_response fuel prompt meta ua ra model tokenizer config
              first_input g ss) = Returned ->
  exists msgs real_prompt answer,
    messages MK ss = Some msgs
    /\ combine_history (map message msgs) prompt meta true = Ok real_prompt
    /\ Decoder.outcome (run_of fuel model tokenizer config g real_prompt)
       = Decoder.STOPPED
    /\ answer
       = last (Decoder.emissions
                 (run_of fuel model tokenizer config g real_prompt))
              ""%string
    /\ state MK (get_response fuel prompt meta ua ra model tokenizer config
                   first_input g ss)
       = set_messages MK ss
           (Some ((if first_input then msgs
                   else msgs ++ [entry "user" prompt ua])
                  ++ [entry "robot" answer ra]))
    /\ shown MK (get_response fuel prompt meta ua ra model tokenizer config
                   first_input g ss)
       = streamed (Decoder.emissions
                     (run_of fuel model tokenizer config g real_prompt))
         ++ [PlaceholderMarkdown answer].
Proof.
  unfold App.get_response.
  destruct (messages MK ss) as [msgs|]; [|discriminate].
  destruct (combine_history _ _ _ _) as [real_prompt|e] eqn:Hprompt;
    [|discriminate].
  rewrite stream_spec. cbn [app].
  destruct (Decoder.outcome _) eqn:Hout; try discriminate.
  pose proof (run_stopped_emits _ _ _ _ _ _ _ _ _ _ _ _ _ _ _ Hout) as Hem.
  destruct (Decoder.emissions _) as [|r rest] eqn:Hrs; [congruence|].
  intros _. exists msgs, real_prompt, (last (r :: rest) ""%string).
  cbn beta. rewrite Hrs, Hout. repeat split; assumption.
Qed.

(** What a call of [get_response] that returns has done. The answer is
    the last response of the generation, whatever it is; the history
    has gained the user's message (unless the call is for the
    introduction) and then the answer as a message of the robot; the
    placeholder was written with every response but ["~"] followed by
    the cursor, and at the end with the answer, without cursor. *)
Theorem get_response_returned
    (fuel : nat) (prompt meta ua ra : string)
    (model : Decoder.Model MK) (tokenizer : Decoder.Tokenizer)
    (config : GenerationConfig) (first_input : bool) (g : RNG)
    (ss : session MK) :
  ended MK (get_response fuel prompt meta ua ra model tokenizer config
              first_input g ss) = Returned ->
  exists msgs real_prompt answer,
    messages MK ss = Some msgs
    /\ combine_history (map message msgs) prompt meta true = Ok real_prompt
    /\ Decoder.outcome (run_of fuel model tokenizer config g real_prompt)
       = Decoder.STOPPED
    /\ answer
       = last (Decoder.emissions
                 (run_of fuel model tokenizer config g real_prompt))
              ""%string
    /\ state MK (get_response fuel prompt meta ua ra model tokenizer config
                   first_input g ss)
       = set_messages MK ss
           (Some ((if first_input then msgs
                   else msgs ++ [entry "user" prompt ua])
                  ++ [entry "robot" answer ra]))
    /\ shown MK (get_response fuel prompt meta ua ra model tokenizer config
                   first_input g ss)
       = streamed (Decoder.emissions
                     (run_of fuel model tokenizer config g real_prompt))
         ++ [PlaceholderMarkdown answer].
Proof.
  exact (get_response_returns fuel prompt meta ua ra model tokenizer config
           first_input g ss).
Qed.

(** A call of [get_response] that does not return leaves no answer in
    the history. When it fails before the generation (no history, or a
    message with an unknown role) it leaves the session as it was and
    has shown nothing; when the generation raises or is not finished,
    the user's message stays in the history without an answer. *)
Theorem get_response_not_returned
    (fuel : nat) (prompt meta ua ra : string)
    (model : Decoder.Model MK) (tokenizer : Decoder.Tokenizer)
    (config : GenerationConfig) (first_input : bool) (g : RNG)
    (ss : session MK) :
  ended MK (get_response fuel prompt meta ua ra model tokenizer config
              first_input g ss) <> Returned ->
  (state MK (get_response fuel prompt meta ua ra model tokenizer config
               first_input g ss) = ss
   /\ shown MK (get_response fuel prompt meta ua ra model tokenizer config
                  first_input g ss) = []
   /\ match messages MK ss with
      | Some msgs => forallb known_role (map message msgs) = false
      | None => True
      end)
  \/ (exists msgs,
         messages MK ss = Some msgs
         /\ forallb known_role (map message msgs) = true
         /\ state MK (get_response fuel prompt meta ua ra model tokenizer
                        config first_input g ss)
            = set_messages MK ss
                (Some (if first_input then msgs
                       else msgs ++ [entry "user" prompt ua]))).
Proof.
  unfold App.get_response.
  destruct (messages MK ss) as [msgs|] eqn:Hm; [|intros _; left; now cbn].
  unfold combine_history. rewrite add_history_spec.
  destruct (forallb known_role (map message msgs)) eqn:Hk; cbn [bind];
    [|intros _; left; now cbn].
  rewrite stream_spec. cbn [app]. intros Hend. right. exists msgs.
  split; [first [reflexivity|assumption]|].
  split; [first [reflexivity|assumption]|].
  destruct (Decoder.outcome _) eqn:Hout; try reflexivity.
  apply run_stopped_emits in Hout.
  destruct (Decoder.emissions _); [congruence|].
  cbn in Hend. congruence.
Qed.

(** *** The history and the prompts *)

Lemma known_entries (msgs : list chat_entry) (role content avatar : string) :
  forallb known_role (map message msgs) = true ->
  known_role (Message role content) = true ->
  forallb known_role (map message (msgs ++ [entry role content avatar]))
  = true.
Proof.
  intros Hmsgs Hrole. rewrite map_app, forallb_app, Hmsgs.
  cbn. now rewrite Hrole.
Qed.


Lemma history_blocks_app (a b : list Prompt.message) :
  history_blocks (a ++ b)
  = (history_blocks a ++ history_blocks b)%string.
Proof.
  induction a as [|m a IH]; [reflexivity|].
  cbn [app history_blocks fold_right]. fold (history_blocks (a ++ b)).
  fold (history_blocks a). now rewrite IH, append_assoc3.
Qed.

(** A turn goes into the next prompt as it was answered: after
    [get_response] has returned for a prompt of the user, the prompt
    assembled for the next query is the header, the blocks of the
    earlier history, the block of that prompt, the block of the answer
    and the query. *)
Theorem next_prompt_contains_turn
    (fuel : nat) (prompt meta ua ra next meta' : string)
    (model : Decoder.Model MK) (tokenizer : Decoder.Tokenizer)
    (config : GenerationConfig) (g : RNG) (ss : session MK) :
  ended MK (get_response fuel prompt meta ua ra model tokenizer config
              false g ss) = Returned ->
  exists msgs msgs' answer,
    messages MK ss = Some msgs
    /\ messages MK (state MK (get_response fuel prompt meta ua ra model
                                tokenizer config false g ss)) = Some msgs'
    /\ combine_history (map message msgs') next meta' true
       = Ok (system_header meta' ++ history_blocks (map message msgs)
             ++ user_block prompt ++ robot_block answer
             ++ query_block next)%string.
Proof.
  intros Hend.
  destruct (get_response_returns _ _ _ _ _ _ _ _ _ _ _ Hend)
    as (msgs & real_prompt & answer & Hm & Hprompt & _ & _ & Hstate & _).
  exists msgs. eexists. exists answer.
  split; [exact Hm|]. rewrite Hstate. split; [reflexivity|].
  assert (Hk : forallb known_role (map message msgs) = true).
  { unfold combine_history in Hprompt. rewrite add_history_spec in Hprompt.
    destruct (forallb known_role (map message msgs));
      [reflexivity|discriminate]. }
  unfold combine_history. rewrite add_history_spec.
  rewrite (known_entries _ "robot" answer ra
             (known_entries msgs "user" prompt ua Hk eq_refl) eq_refl).
  cbn [bind].
  rewrite format_cur_query_prompt. fold (system_header meta').
  rewrite !map_app, !history_blocks_app. cbn [map entry message].
  cbn [history_blocks fold_right message_block role content].
  cbn [String.eqb Ascii.eqb Bool.eqb].
  rewrite !append_empty_r, !append_assoc3. reflexivity.
Qed.

(** *** How the page's arguments reach the decoder *)

Lemma page_prepare (model : Decoder.Model MK) (tokenizer : Decoder.Tokenizer)
    (config : GenerationConfig) (real_prompt : string) (g : RNG)
    (s : Decoder.setup) (st : Decoder.state MK RNG) :
  Decoder.prepare MK RNG model tokenizer real_prompt None None None
    (Some 92542%Z) (asdict config) no_model_kwargs g = Ok (s, st) ->
  Decoder.max_length (Decoder.config s)
  = Some (match Decoder.max_new_tokens (Decoder.generation_config MK model)
          with
          | Some n =>
              (n + Z.of_nat (length (Decoder.encode tokenizer real_prompt)))%Z
          | None => max_length config
          end)
  /\ Decoder.do_sample (Decoder.config s) = do_sample config
  /\ ~ In Decoder.DefaultMaxLengthDeprecated (Decoder.diagnostics s)
  /\ (In Decoder.BothLengthsSet (Decoder.diagnostics s)
      <-> Decoder.max_new_tokens (Decoder.generation_config MK model)
          <> None)
  /\ exists ids, Decoder.eos s = Some (ids ++ [92542%Z]).
Proof.
  unfold Decoder.prepare.
  destruct (Decoder.normalise_eos _ _) as [eosv|e] eqn:Hnorm;
    cbn [bind]; [|discriminate].
  destruct (Decoder.resolve_max_length _ _ _) as [[c diags]|e] eqn:Hres;
    cbn [bind]; [|discriminate].
  intros H. inversion H; subst. clear H.
  cbn [Decoder.config Decoder.diagnostics Decoder.eos].
  assert (Heos : exists ids, eosv = Some (ids ++ [92542%Z])).
  { unfold Decoder.normalise_eos in Hnorm.
    cbn [Decoder.update Decoder.eos_token_id] in Hnorm.
    destruct (Decoder.eos_token_id (Decoder.generation_config MK model))
      as [|i|l]; inversion Hnorm; [now exists [i]|now exists l]. }
  destruct (appended_eos_keeps
              (Decoder.update (Decoder.generation_config MK model)
                 (asdict config)) (Some 92542%Z)) as (Hml & Hmn & Hds).
  cbn [asdict Decoder.update Decoder.max_length Decoder.max_new_tokens
       Decoder.do_sample Decoder.override Decoder.kw_max_length
       Decoder.kw_max_new_tokens Decoder.kw_do_sample] in Hml, Hmn, Hds.
  unfold Decoder.resolve_max_length in Hres.
  cbn [asdict Decoder.kw_max_length Decoder.kwargs_get Decoder.is_none
       andb negb] in Hres.
  rewrite Hmn in Hres.
  destruct (Decoder.max_new_tokens (Decoder.generation_config MK model))
    as [n|].
  - cbn [Decoder.set_max_length Decoder.max_length] in Hres.
    inversion Hres; subst; clear Hres.
    cbn [Decoder.max_length Decoder.do_sample Decoder.set_max_length].
    split; [reflexivity|]. split; [exact Hds|].
    split; [|split; [|exact Heos]].
    + destruct (_ >=? _)%Z; cbn; intros H;
        repeat (destruct H as [H|H]; try discriminate H); contradiction.
    + split; [discriminate|]. intros _. now left.
  - rewrite Hml in Hres. inversion Hres; subst; clear Hres.
    split; [exact Hml|]. split; [exact Hds|].
    split; [|split; [|exact Heos]].
    + destruct (_ >=? _)%Z; cbn; intros H;
        repeat (destruct H as [H|H]; try discriminate H); contradiction.
    + split; [|congruence].
      destruct (_ >=? _)%Z; cbn; intros H;
        repeat (destruct H as [H|H]; try discriminate H); contradiction.
Qed.

(** The run that [get_response] starts takes its sampling switch from
    the page's configuration and its length cap from the page's
    [max_length], unless the model's own configuration sets
    [max_new_tokens], which then decides the cap and is reported with
    the both-are-set diagnostic; the deprecation warning is never
    given, and 92542 is the last of the end-of-sequence ids. *)
Theorem page_arguments_resolve
    (model : Decoder.Model MK) (tokenizer : Decoder.Tokenizer)
    (config : GenerationConfig) (real_prompt : string) (g : RNG)
    (s : Decoder.setup) (st : Decoder.state MK RNG) :
  Decoder.prepare MK RNG model tokenizer real_prompt None None None
    (Some 92542%Z) (asdict config) no_model_kwargs g = Ok (s, st) ->
  Decoder.max_length (Decoder.config s)
  = Some (match Decoder.max_new_tokens (Decoder.generation_config MK model)
          with
          | Some n =>
              (n + Z.of_nat (length (Decoder.encode tokenizer real_prompt)))%Z
          | None => max_length config
          end)
  /\ Decoder.do_sample (Decoder.config s) = do_sample config
  /\ ~ In Decoder.DefaultMaxLengthDeprecated (Decoder.diagnostics s)
  /\ (In Decoder.BothLengthsSet (Decoder.diagnostics s)
      <-> Decoder.max_new_tokens (Decoder.generation_config MK model)
          <> None)
  /\ exists ids, Decoder.eos s = Some (ids ++ [92542%Z]).
Proof.
  exact (page_prepare model tokenizer config real_prompt g s st).
Qed.

(** With a model whose configuration has no end-of-sequence id,
    [get_response] raises [AttributeError] before any generation: the
    additional id it passes cannot be appended. The user's message is
    already in the history by then. *)
Theorem get_response_without_model_eos
    (fuel : nat) (prompt meta ua ra : string)
    (model : Decoder.Model MK) (tokenizer : Decoder.Tokenizer)
    (config : GenerationConfig) (first_input : bool) (g : RNG)
    (ss : session MK) (msgs : list chat_entry) :
  Decoder.eos_token_id (Decoder.generation_config MK model)
  = Decoder.EosNone ->
  messages MK ss = Some msgs ->
  forallb known_role (map message msgs) = true ->
  get_response fuel prompt meta ua ra model tokenizer config first_input g ss
  = raising MK
      (set_messages MK ss
         (Some (if first_input then msgs
                else msgs ++ [entry "user" prompt ua])))
      [] AttributeError.
Proof.
  intros Heos Hm Hk. unfold App.get_response. rewrite Hm.
  unfold combine_history. rewrite add_history_spec, Hk. cbn [bind].
  unfold Decoder.generate_interactive, Decoder.prepare.
  cbn [Decoder.update Decoder.eos_token_id]. rewrite Heos.
  cbn. reflexivity.
Qed.

(** [get_response] comes to an end: driven for as many passes as the
    length cap leaves after the prompt (and for one at least), the
    generation it starts is over, whatever the model and the random
    source do. *)
Theorem get_response_ends
    (fuel : nat) (prompt meta ua ra : string)
    (model : Decoder.Model MK) (tokenizer : Decoder.Tokenizer)
    (config : GenerationConfig) (first_input : bool) (g : RNG)
    (ss : session MK) (msgs : list chat_entry) (real_prompt : string) :
  messages MK ss = Some msgs ->
  combine_history (map message msgs) prompt meta true = Ok real_prompt ->
  (Z.max 1
     (match Decoder.max_new_tokens (Decoder.generation_config MK model) with
      | Some n =>
          n + Z.of_nat (length (Decoder.encode tokenizer real_prompt))
      | None => max_length config
      end - Z.of_nat (length (Decoder.encode tokenizer real_prompt)))
   <= Z.of_nat fuel)%Z ->
  ended MK (get_response fuel prompt meta ua ra model tokenizer config
              first_input g ss) <> Unfinished.
Proof.
  intros Hm Hprompt Hfuel. unfold App.get_response.
  rewrite Hm, Hprompt, stream_spec. cbn [app].
  destruct (Decoder.outcome _) eqn:Hout; try discriminate.
  - exfalso. revert Hout.
    destruct (Decoder.prepare MK RNG model tokenizer real_prompt None None
                None (Some 92542%Z) (asdict config) no_model_kwargs g)
      as [[s st]|e] eqn:Hprep.
    + destruct (page_prepare _ _ _ _ _ _ _ Hprep) as (Hcap & _).
      exact (run_bounded MK RNG softmax multinomial model tokenizer fuel
               real_prompt None None None (Some 92542%Z) (asdict config)
               no_model_kwargs g s st _ Hprep Hcap Hfuel).
    + unfold Decoder.generate_interactive. rewrite Hprep. discriminate.
  - apply run_stopped_emits in Hout.
    destruct (Decoder.emissions _); [congruence|discriminate].
Qed.

(** *** Runs of [main] *)

Local Abbreviation respond :=
  (App.respond MK RNG softmax multinomial no_model_kwargs).
Local Abbreviation answer :=
  (App.answer MK RNG softmax multinomial no_model_kwargs).
Local Abbreviation main :=
  (App.main MK RNG softmax multinomial no_model_kwargs).
Local Abbreviation script :=
  (App.script MK RNG softmax multinomial no_model_kwargs).

Lemma set_messages_same (ss : session MK) :
  set_messages MK ss (messages MK ss) = ss.
Proof.
  now destruct ss.
Qed.

(** [get_response] touches no attribute of the session but the
    history. *)
Lemma get_response_frame
    (fuel : nat) (prompt meta ua ra : string)
    (model : Decoder.Model MK) (tokenizer : Decoder.Tokenizer)
    (config : GenerationConfig) (first_input : bool) (g : RNG)
    (ss : session MK) :
  exists m,
    state MK (get_response fuel prompt meta ua ra model tokenizer config
                first_input g ss) = set_messages MK ss m.
Proof.
  unfold App.get_response.
  destruct (messages MK ss) as [msgs|] eqn:Hm.
  - destruct (combine_history _ _ _ _) as [real_prompt|e].
    + rewrite stream_spec. cbn [app].
      destruct (Decoder.outcome _); [eexists; reflexivity| |eexists; reflexivity].
      destruct (Decoder.emissions _); eexists; reflexivity.
    + exists (messages MK ss). now rewrite set_messages_same.
  - exists (messages MK ss). now rewrite set_messages_same.
Qed.

Lemma respond_frame
    (fuel : nat) (meta : string) (config : GenerationConfig)
    (prompt : option string) (g : RNG) (ss : session MK)
    (written : list ui) :
  exists m,
    state MK (respond fuel meta config prompt g ss written)
    = set_messages MK ss m.
Proof.
  unfold App.respond.
  assert (Hsame : exists m, ss = set_messages MK ss m)
    by (exists (messages MK ss); now rewrite set_messages_same).
  destruct (truthy prompt); [|exact Hsame].
  destruct (model MK ss) as [m|]; [|exact Hsame].
  destruct (tokenizer MK ss) as [t|]; [|exact Hsame].
  apply get_response_frame.
Qed.

Lemma answer_button
    (fuel : nat) (meta : string) (config : GenerationConfig)
    (typed : option string) (g : RNG) (ss : session MK) (written : list ui) :
  button_msg MK (state MK (answer fuel meta config typed g ss written))
  = Some no_button_msg.
Proof.
  unfold App.answer.
  set (ss1 := match button_msg MK ss with
              | Some _ => ss
              | None => set_button_msg MK ss (Some no_button_msg)
              end).
  set (pending := match button_msg MK ss1 with
                  | Some b => b
                  | None => no_button_msg
                  end).
  destruct (negb (pending =? no_button_msg)%string) eqn:Hp.
  - destruct (respond_frame fuel meta config (Some pending) g
                (set_button_msg MK ss1 (Some no_button_msg)) written)
      as [m ->].
    reflexivity.
  - apply negb_false_iff, String.eqb_eq in Hp.
    destruct (respond_frame fuel meta config typed g ss1 written) as [m ->].
    cbn [button_msg set_messages].
    subst pending ss1. destruct (button_msg MK ss) as [b|] eqn:Hbm.
    + rewrite Hbm in *. now subst b.
    + reflexivity.
Qed.

(** A run of [main] that returns leaves no button message pending:
    [button_msg] holds the value that stands for none. *)
Theorem main_leaves_no_button_message
    (fuel : nat) (meta : string) (typed : option string) (g1 g2 : RNG)
    (ss : session MK) :
  ended MK (main fuel meta typed g1 g2 ss) = Returned ->
  button_msg MK (state MK (main fuel meta typed g1 g2 ss))
  = Some no_button_msg.
Proof.
  unfold App.main.
  destruct (page_switch MK ss) as [target|]; [|discriminate].
  destruct (current_page MK ss) as [current|]; [|discriminate].
  destruct (negb (target =? current)%string); [discriminate|].
  destruct (prepare_generation_config MK ss) as [config|e]; [|discriminate].
  destruct (match messages MK ss with Some msgs => msgs | None => [] end)
    as [|m l].
  - cbn [first_input model tokenizer set_messages].
    destruct (first_input MK ss) as [first|]; [|discriminate].
    destruct (model MK ss) as [md|]; [|discriminate].
    destruct (tokenizer MK ss) as [t|]; [|discriminate].
    destruct (ended MK (get_response _ _ _ _ _ _ _ _ _ _ _));
      try discriminate.
    intros _. apply answer_button.
  - intros _. apply answer_button.
Qed.

(** *** The shape of the history *)

Lemma answered_app (b : list string) :
  forall a, answered a = true -> answered (a ++ b) = answered b.
Proof.
  fix IH 1. intros [|u [|r rest]] H; [reflexivity|discriminate|].
  cbn [answered] in H. apply andb_true_iff in H. destruct H as [H Hrest].
  cbn [app answered]. rewrite H. cbn [andb]. exact (IH rest Hrest).
Qed.

Lemma roles_app (a b : list chat_entry) : roles (a ++ b) = roles a ++ roles b.
Proof.
  unfold roles. apply map_app.
Qed.

Lemma dialogue_turn (msgs : list chat_entry) (p a r a' : string) :
  dialogue msgs = true ->
  dialogue ((msgs ++ [entry "user" p a]) ++ [entry "robot" r a']) = true.
Proof.
  unfold dialogue. rewrite !roles_app, <- app_assoc.
  destruct (roles msgs) as [|x rest]; [discriminate|].
  intros H. apply andb_true_iff in H. destruct H as [Hx Hrest].
  cbn [app]. rewrite Hx. cbn [andb]. now rewrite answered_app.
Qed.

Lemma respond_dialogue
    (fuel : nat) (meta : string) (config : GenerationConfig)
    (prompt : option string) (g : RNG) (ss : session MK)
    (written : list ui) (msgs : list chat_entry) :
  messages MK ss = Some msgs ->
  dialogue msgs = true ->
  ended MK (respond fuel meta config prompt g ss written) = Returned ->
  exists msgs',
    messages MK (state MK (respond fuel meta config prompt g ss written))
    = Some msgs'
    /\ dialogue msgs' = true.
Proof.
  intros Hm Hd. unfold App.respond.
  destruct (truthy prompt); [|intros _; exists msgs; now split].
  destruct (model MK ss) as [m|]; [|discriminate].
  destruct (tokenizer MK ss) as [t|]; [|discriminate].
  cbn [state ended]. intros Hend.
  destruct (get_response_returns _ _ _ _ _ _ _ _ _ _ _ Hend)
    as (msgs0 & _ & reply & Hm0 & _ & _ & _ & Hstate & _).
  rewrite Hm in Hm0. inversion Hm0; subst msgs0.
  rewrite Hstate. eexists. split; [reflexivity|].
  now apply dialogue_turn.
Qed.

Lemma answer_dialogue
    (fuel : nat) (meta : string) (config : GenerationConfig)
    (typed : option string) (g : RNG) (ss : session MK) (written : list ui)
    (msgs : list chat_entry) :
  messages MK ss = Some msgs ->
  dialogue msgs = true ->
  ended MK (answer fuel meta config typed g ss written) = Returned ->
  exists msgs',
    messages MK (state MK (answer fuel meta config typed g ss written))
    = Some msgs'
    /\ dialogue msgs' = true.
Proof.
  intros Hm Hd. unfold App.answer.
  set (ss1 := match button_msg MK ss with
              | Some _ => ss
              | None => set_button_msg MK ss (Some no_button_msg)
              end).
  assert (Hm1 : messages MK ss1 = Some msgs).
  { subst ss1. now destruct (button_msg MK ss). }
  clearbody ss1.
  destruct (negb (_ =? no_button_msg)%string).
  - now apply respond_dialogue with (msgs := msgs).
  - now apply respond_dialogue with (msgs := msgs).
Qed.

(** The history keeps the shape of a conversation that was answered.
    From no history, an empty one, or one that begins with a message of
    the robot and goes on in pairs of a user message and an answer, a
    run of [main] that returns leaves a history of that last shape. *)
Theorem main_keeps_dialogue
    (fuel : nat) (meta : string) (typed : option string) (g1 g2 : RNG)
    (ss : session MK) :
  match messages MK ss with
  | Some (m :: l) => dialogue (m :: l) = true
  | _ => True
  end ->
  ended MK (main fuel meta typed g1 g2 ss) = Returned ->
  exists msgs',
    messages MK (state MK (main fuel meta typed g1 g2 ss)) = Some msgs'
    /\ dialogue msgs' = true.
Proof.
  intros Hshape. unfold App.main.
  destruct (page_switch MK ss) as [target|]; [|discriminate].
  destruct (current_page MK ss) as [current|]; [|discriminate].
  destruct (negb (target =? current)%string); [discriminate|].
  destruct (prepare_generation_config MK ss) as [config|e]; [|discriminate].
  assert (Hmsgs : match (match messages MK ss with
                         | Some msgs => msgs
                         | None => []
                         end) with
                  | m :: l => dialogue (m :: l) = true
                  | [] => True
                  end).
  { destruct (messages MK ss) as [[|m l]|]; auto. }
  destruct (match messages MK ss with Some msgs => msgs | None => [] end)
    as [|m l].
  - cbn [first_input model tokenizer set_messages].
    destruct (first_input MK ss) as [first|]; [|discriminate].
    destruct (model MK ss) as [md|]; [|discriminate].
    destruct (tokenizer MK ss) as [t|]; [|discriminate].
    destruct (ended MK (get_response _ _ _ _ _ _ _ _ _ _ _)) eqn:Hend;
      try discriminate.
    destruct (get_response_returns _ _ _ _ _ _ _ _ _ _ _ Hend)
      as (msgs0 & _ & reply & Hm0 & _ & _ & _ & Hstate & _).
    cbn [messages] in Hm0. inversion Hm0; subst msgs0.
    apply answer_dialogue with (msgs := [entry "robot" reply robot_avator]).
    + now rewrite Hstate.
    + reflexivity.
  - apply answer_dialogue with (msgs := m :: l); [reflexivity|exact Hmsgs].
Qed.

(** *** Buttons and typed input *)

Lemma answer_pending
    (fuel : nat) (meta : string) (config : GenerationConfig)
    (typed : option string) (g : RNG) (ss : session MK) (written : list ui)
    (b : string) :
  button_msg MK ss = Some b ->
  (b =? no_button_msg)%string = false ->
  answer fuel meta config typed g ss written
  = respond fuel meta config (Some b) g
      (set_button_msg MK ss (Some no_button_msg)) written.
Proof.
  intros Hb Hne. unfold App.answer. rewrite Hb. cbv beta zeta iota.
  rewrite Hb. cbv beta zeta iota. rewrite Hne. reflexivity.
Qed.

(** A pending button message is answered in place of what was typed:
    with a button message pending, the run of [main] is the same
    whatever the chat input returns. *)
Theorem pending_button_message_overrides_typed
    (fuel : nat) (meta : string) (typed typed' : option string)
    (g1 g2 : RNG) (ss : session MK) (b : string) :
  button_msg MK ss = Some b ->
  (b =? no_button_msg)%string = false ->
  main fuel meta typed g1 g2 ss = main fuel meta typed' g1 g2 ss.
Proof.
  intros Hb Hne. unfold App.main.
  destruct (page_switch MK ss) as [target|]; [|reflexivity].
  destruct (current_page MK ss) as [current|]; [|reflexivity].
  destruct (negb (target =? current)%string); [reflexivity|].
  destruct (prepare_generation_config MK ss) as [config|e]; [|reflexivity].
  destruct (match messages MK ss with Some msgs => msgs | None => [] end)
    as [|m l].
  - cbn [first_input model tokenizer set_messages].
    destruct (first_input MK ss) as [first|]; [|reflexivity].
    destruct (model MK ss) as [md|]; [|reflexivity].
    destruct (tokenizer MK ss) as [t|]; [|reflexivity].
    set (r := get_response _ _ _ _ _ _ _ _ _ _ _).
    assert (Hbr : button_msg MK (state MK r) = Some b).
    { subst r.
      destruct (get_response_frame fuel first meta user_avator robot_avator
                  md t config true g1
                  (set_messages MK ss (Some []))) as [x Hx].
      cbn [set_messages] in Hx. rewrite Hx. exact Hb. }
    destruct (ended MK r); try reflexivity.
    now rewrite !(answer_pending _ _ _ _ _ _ _ b Hbr Hne).
  - rewrite !(answer_pending _ _ _ _ _ _ _ b) by assumption. reflexivity.
Qed.

(** A run of [main] with a history, no button message pending and
    nothing typed (or the empty text) generates nothing: it shows the
    history and leaves it as it was. *)
Theorem idle_run_shows_history
    (fuel : nat) (meta page : string) (typed : option string) (g1 g2 : RNG)
    (ss : session MK) (config : GenerationConfig)
    (m : chat_entry) (l : list chat_entry) :
  page_switch MK ss = Some page ->
  current_page MK ss = Some page ->
  prepare_generation_config MK ss = Ok config ->
  messages MK ss = Some (m :: l) ->
  button_msg MK ss = None \/ button_msg MK ss = Some no_button_msg ->
  truthy typed = false ->
  ended MK (main fuel meta typed g1 g2 ss) = Returned
  /\ shown MK (main fuel meta typed g1 g2 ss) = show_history (m :: l)
  /\ messages MK (state MK (main fuel meta typed g1 g2 ss))
     = Some (m :: l).
Proof.
  intros Hp Hc Hcfg Hm Hb Ht. unfold App.main.
  rewrite Hp, Hc, String.eqb_refl, Hcfg, Hm. cbn [negb].
  unfold App.answer, App.respond.
  destruct Hb as [Hb|Hb];
    repeat (progress (cbn [button_msg set_messages set_button_msg];
                      rewrite ?Hb));
    change (no_button_msg =? no_button_msg)%string with true;
    cbn [negb]; rewrite Ht;
    cbn [ended shown state messages set_messages set_button_msg];
    repeat split.
Qed.

(** The back button ends the page: after [on_btn_click] with the label
    of the back button, the next run of the script leaves for the
    product page before it reads or writes the history. *)
Theorem back_button_leaves_page
    (fuel : nat) (typed : option string) (g1 g2 : RNG) (ss : session MK) :
  on_btn_click MK (Some back_to_products) ss
  = (set_page_switch MK ss (Some main_page), Returned)
  /\ ended MK (script fuel typed g1 g2
                 (set_page_switch MK ss (Some main_page)))
     = Switched main_page
  /\ shown MK (script fuel typed g1 g2
                 (set_page_switch MK ss (Some main_page))) = []
  /\ messages MK (state MK (script fuel typed g1 g2
                              (set_page_switch MK ss (Some main_page))))
     = messages MK ss.
Proof.
  split; [reflexivity|].
  unfold App.script.
  cbn [model sales_info set_current_page set_page_switch].
  destruct (model MK ss) as [md|]; [|now cbn].
  destruct (sales_info MK ss) as [info|]; [|now cbn].
  destruct (info =? "")%string; [now cbn|].
  unfold App.main.
  cbn [page_switch current_page set_current_page set_page_switch].
  change (negb (main_page =? selling_page)%string) with true.
  now cbn.
Qed.

Lemma want_to_buy_is_a_prompt (info : string) :
  In info want_to_buy_list ->
  (info =? clear_history)%string = false
  /\ (info =? back_to_products)%string = false
  /\ (info =? no_button_msg)%string = false
  /\ truthy (Some info) = true.
Proof.
  intros H. cbn in H.
  repeat (destruct H as [<-|H]; [now vm_compute|]). contradiction.
Qed.

(** The add-to-cart button asks for the robot's answer: whichever of
    its sentences it passes, [on_btn_click] queues the sentence, and
    the next run of [main] on the page, with its history, answers it as
    if the user had typed it. *)
Theorem add_to_cart_is_answered_like_typed
    (fuel : nat) (meta info page : string) (typed : option string)
    (g1 g2 : RNG) (ss : session MK) (config : GenerationConfig)
    (m : chat_entry) (l : list chat_entry) :
  In info want_to_buy_list ->
  page_switch MK ss = Some page ->
  current_page MK ss = Some page ->
  prepare_generation_config MK ss = Ok config ->
  messages MK ss = Some (m :: l) ->
  on_btn_click MK (Some info) ss
  = (set_button_msg MK ss (Some info), Returned)
  /\ main fuel meta typed g1 g2 (set_button_msg MK ss (Some info))
     = main fuel meta (Some info) g1 g2
         (set_button_msg MK ss (Some no_button_msg)).
Proof.
  intros Hin Hp Hcur Hcfg Hm.
  destruct (want_to_buy_is_a_prompt info Hin) as (Hc & Hb & Hn & Ht).
  split.
  - unfold App.on_btn_click. now rewrite Hc, Hb.
  - unfold App.main.
    cbn [page_switch current_page messages set_button_msg].
    rewrite Hp, Hcur, String.eqb_refl. cbn [negb].
    change (prepare_generation_config MK (set_button_msg MK ss (Some info)))
      with (prepare_generation_config MK ss).
    change (prepare_generation_config MK
              (set_button_msg MK ss (Some no_button_msg)))
      with (prepare_generation_config MK ss).
    rewrite Hcfg, Hm. unfold App.answer.
    cbn [button_msg set_messages set_button_msg]. rewrite Hn.
    change (no_button_msg =? no_button_msg)%string with true.
    reflexivity.
Qed.

(** After the history is cleared, the next run of [main] with nothing
    typed and no button message pending leaves exactly one message in
    the history: the robot's introduction. The first input the
    introduction answers is not recorded. *)
Theorem cleared_history_gets_introduction
    (fuel : nat) (meta : string) (typed : option string) (g1 g2 : RNG)
    (ss : session MK) (l : list chat_entry) :
  messages MK ss = Some l ->
  button_msg MK ss = None \/ button_msg MK ss = Some no_button_msg ->
  truthy typed = false ->
  on_btn_click MK (Some clear_history) ss
  = (set_messages MK ss None, Returned)
  /\ (ended MK (main fuel meta typed g1 g2 (set_messages MK ss None))
      = Returned ->
      exists intro,
        messages MK (state MK (main fuel meta typed g1 g2
                                 (set_messages MK ss None)))
        = Some [entry "robot" intro robot_avator]).
Proof.
  intros Hm Hb Ht. split.
  - unfold App.on_btn_click. now rewrite Hm.
  - unfold App.main.
    cbn [page_switch current_page messages set_messages
         prepare_generation_config].
    destruct (page_switch MK ss) as [target|]; [|discriminate].
    destruct (current_page MK ss) as [current|]; [|discriminate].
    destruct (negb (target =? current)%string); [discriminate|].
    unfold App.prepare_generation_config.
    cbn [product_name image_path hightlight set_messages].
    destruct (product_name MK ss); [|discriminate].
    destruct (image_path MK ss); [|discriminate].
    destruct (hightlight MK ss); [|discriminate].
    cbn [first_input model tokenizer set_messages].
    destruct (first_input MK ss) as [first|]; [|discriminate].
    destruct (model MK ss) as [md|]; [|discriminate].
    destruct (tokenizer MK ss) as [t|]; [|discriminate].
    destruct (ended MK (get_response _ _ _ _ _ _ _ _ _ _ _)) eqn:Hend;
      try discriminate.
    destruct (get_response_returns _ _ _ _ _ _ _ _ _ _ _ Hend)
      as (msgs0 & _ & reply & Hm0 & _ & _ & _ & Hstate & _).
    cbn [messages] in Hm0. inversion Hm0; subst msgs0.
    intros _. exists reply. rewrite Hstate.
    unfold App.answer, App.respond.
    destruct Hb as [Hb|Hb];
      repeat (progress (cbn [button_msg set_messages set_button_msg];
                        rewrite ?Hb));
      change (no_button_msg =? no_button_msg)%string with true;
      cbn [negb]; rewrite Ht; reflexivity.
Qed.

End PageFacts.

(** ** More runs of the small models and of the page *)

Section MoreRuns.

Import Decoder.
Local Open Scope list_scope.
Local Open Scope Z_scope.

(** The run of the model that prefers 5, 6 and then the
    end-of-sequence id 2, on the prompt [abc], for at most [fuel]
    passes. *)
Local Abbreviation scripted_model :=
  (Toy.scripted (Toy.greedy (Some 20) None) 3 [5; 6; 2]).
Local Abbreviation scripted_prepare :=
  (prepare unit nat scripted_model Toy.letters "abc" None None None
     (Some 92542) Toy.no_kwargs tt O).
Local Abbreviation scripted_run := (fun fuel =>
  generate_interactive unit nat Toy.keep Toy.draw scripted_model Toy.letters
    fuel "abc" None None None (Some 92542) Toy.no_kwargs tt O).

Lemma run_accounts_for_tokens_witness :
  exists new,
    token_ids (scripted_run 10%nat) = encode Toy.letters "abc" ++ new
    /\ length new = length (emissions (scripted_run 10%nat))
    /\ forward_calls (scripted_run 10%nat) = length new.
Proof.
  destruct (run_accounts_for_tokens unit nat Toy.keep Toy.draw
              scripted_model Toy.letters 10 "abc"%string None None None
              (Some 92542) Toy.no_kwargs tt O _ _ eq_refl)
    as (new & Htok & Hlen & Hcalls).
  exists new. split; [exact Htok|]. split; [exact Hlen|exact Hcalls].
Defined.

Lemma stopped_for_a_reason_witness :
  exists s st,
    scripted_prepare = Ok (s, st)
    /\ emissions (scripted_run 10%nat) <> []
    /\ (is_eos (eos_ids (eos s)) (last (token_ids (scripted_run 10%nat)) 0)
        = true
        \/ call_criteria (stopping_criteria s)
             (token_ids (scripted_run 10%nat)) = true).
Proof.
  eexists. eexists. split; [reflexivity|].
  eapply (stopped_for_a_reason unit nat Toy.keep Toy.draw scripted_model
            Toy.letters 10 "abc"%string None None None (Some 92542)
            Toy.no_kwargs tt O); reflexivity.
Defined.

Lemma running_means_no_stop_source_witness :
  exists s st,
    scripted_prepare = Ok (s, st)
    /\ is_eos (eos_ids (eos s)) (last (token_ids (scripted_run 2%nat)) 0)
       = false
    /\ call_criteria (stopping_criteria s) (token_ids (scripted_run 2%nat))
       = false.
Proof.
  eexists. eexists. split; [reflexivity|].
  eapply (running_means_no_stop_source unit nat Toy.keep Toy.draw
            scripted_model Toy.letters 2 "abc"%string None None None
            (Some 92542) Toy.no_kwargs tt O);
    [reflexivity|reflexivity|discriminate].
Defined.

Lemma only_last_token_can_be_eos_witness :
  exists s st,
    scripted_prepare = Ok (s, st)
    /\ is_eos (eos_ids (eos s))
         (nth 0 (skipn (input_length s) (token_ids (scripted_run 10%nat))) 0)
       = false.
Proof.
  eexists. eexists. split; [reflexivity|].
  eapply (only_last_token_can_be_eos unit nat Toy.keep Toy.draw
            scripted_model Toy.letters 10 "abc"%string None None None
            (Some 92542) Toy.no_kwargs tt O _ _ 0%nat);
    [reflexivity|cbn; lia].
Defined.

Lemma eos_pass_repeats_previous_text_witness :
  nth 2 (emissions (scripted_run 10%nat)) ""%string
  = nth 1 (emissions (scripted_run 10%nat)) ""%string.
Proof.
  eapply (eos_pass_repeats_previous_text unit nat Toy.keep Toy.draw
            scripted_model Toy.letters 10 "abc"%string None None None
            (Some 92542) Toy.no_kwargs tt O _ _ 2%nat);
    [reflexivity|cbn; lia|reflexivity].
Defined.

(** A configuration without an end-of-sequence id. *)
Local Abbreviation no_eos_config :=
  {| max_length := Some 20; max_new_tokens := None; do_sample := false;
     bos_token_id := Some 1; eos_token_id := EosNone |}.


Lemma eight_scores_never_empty (c : GenerationConfig) (p : nat)
    (script : list Z) (s : setup) (st : state unit nat) (prompt : string)
    (additional : option Z) :
  prepare unit nat (Toy.scripted c p script) Toy.letters prompt None None
    None additional Toy.no_kwargs tt O = Ok (s, st) ->
  Runs.never_empty unit Toy.keep (Toy.scripted c p script) s.
Proof.
  unfold prepare.
  destruct (normalise_eos _ _); cbn [bind]; [|discriminate].
  destruct (resolve_max_length _ _ _) as [[c' d]|]; cbn [bind];
    [|discriminate].
  intros H. inversion H; subst. right. intros mk ids. cbn. discriminate.
Qed.



End MoreRuns.

Section PageRuns.

Import Prompt App.
Local Open Scope list_scope.
Local Open Scope string_scope.

(** A turn of the page that is answered (the counter of the random
    source starts at 5) and one that fails in its first pass (the
    counter starts at 2, the end-of-sequence id of the model). *)
Local Abbreviation answered_turn :=
  (Demo.respond_to 10 "price" (Decoder.EosInt 2%Z) false 5
     (Some Demo.greeted)).
Local Abbreviation failed_turn :=
  (Demo.respond_to 10 "price" (Decoder.EosInt 2%Z) false 2
     (Some Demo.greeted)).

Lemma get_response_returned_witness :
  exists answer,
    messages unit (state unit answered_turn)
    = Some ((Demo.greeted ++ [entry "user" "price" user_avator])
            ++ [entry "robot" answer robot_avator])%list.
Proof.
  destruct (get_response_returned unit nat Toy.keep Toy.draw tt 10
              "price" "sell" user_avator robot_avator
              (Demo.eight_tokens (Decoder.EosInt 2%Z)) Toy.letters
              default_config false 5%nat (Demo.page (Some Demo.greeted) None)
              eq_refl)
    as (msgs & real_prompt & answer & Hm & _ & _ & _ & Hstate & _).
  exists answer. inversion Hm; subst msgs.
  unfold Demo.respond_to. now rewrite Hstate.
Defined.

Lemma get_response_not_returned_witness :
  messages unit (state unit failed_turn)
  = Some (Demo.greeted ++ [entry "user" "price" user_avator])%list.
Proof.
  destruct (get_response_not_returned unit nat Toy.keep Toy.draw tt 10
              "price" "sell" user_avator robot_avator
              (Demo.eight_tokens (Decoder.EosInt 2%Z)) Toy.letters
              default_config false 2%nat (Demo.page (Some Demo.greeted) None))
    as [(_ & _ & Hk)|(msgs & Hm & _ & Hstate)].
  - discriminate.
  - discriminate Hk.
  - inversion Hm; subst msgs. unfold Demo.respond_to. now rewrite Hstate.
Defined.


Lemma next_prompt_contains_turn_witness :
  exists msgs' answer,
    messages unit (state unit answered_turn) = Some msgs'
    /\ combine_history (map message msgs') "more?" "sell" true
       = Ok (system_header "sell" ++ history_blocks (map message Demo.greeted)
             ++ user_block "price" ++ robot_block answer
             ++ query_block "more?").
Proof.
  destruct (next_prompt_contains_turn unit nat Toy.keep Toy.draw tt 10
              "price" "sell" user_avator robot_avator "more?" "sell"
              (Demo.eight_tokens (Decoder.EosInt 2%Z)) Toy.letters
              default_config 5%nat (Demo.page (Some Demo.greeted) None)
              eq_refl)
    as (msgs & msgs' & answer & Hm & Hm' & Hnext).
  exists msgs', answer. inversion Hm; subst msgs.
  split; [exact Hm'|exact Hnext].
Defined.

Lemma page_arguments_resolve_witness :
  exists s st,
    Decoder.prepare unit nat (Demo.eight_tokens (Decoder.EosInt 2%Z))
      Toy.letters "price" None None None (Some 92542%Z)
      (asdict default_config) tt 5%nat = Ok (s, st)
    /\ Decoder.max_length (Decoder.config s) = Some 32768%Z
    /\ Decoder.do_sample (Decoder.config s) = true.
Proof.
  eexists. eexists. split; [reflexivity|].
  destruct (page_arguments_resolve unit nat tt
              (Demo.eight_tokens (Decoder.EosInt 2%Z)) Toy.letters
              default_config "price" 5%nat _ _ eq_refl)
    as (Hcap & Hsample & _).
  split; [exact Hcap|exact Hsample].
Defined.

Lemma get_response_without_model_eos_witness :
  Demo.respond_to 10 "price" Decoder.EosNone false 5 (Some Demo.greeted)
  = raising unit
      (set_messages unit (Demo.page (Some Demo.greeted) None)
         (Some (Demo.greeted ++ [entry "user" "price" user_avator])%list))
      [] AttributeError.
Proof.
  exact (get_response_without_model_eos unit nat Toy.keep Toy.draw tt 10
           "price" "sell" user_avator robot_avator
           (Demo.eight_tokens Decoder.EosNone) Toy.letters default_config
           false 5%nat (Demo.page (Some Demo.greeted) None) Demo.greeted
           eq_refl eq_refl eq_refl).
Defined.

Lemma get_response_ends_witness :
  ended unit
    (App.get_response unit nat Toy.keep Toy.draw tt 1 "price" "sell"
       user_avator robot_avator
       (Toy.scripted (Toy.greedy None (Some 1%Z)) 0 []) Toy.letters
       default_config false 5%nat (Demo.page (Some Demo.greeted) None))
  <> Unfinished.
Proof.
  eapply (get_response_ends unit nat Toy.keep Toy.draw tt 1 "price" "sell"
            user_avator robot_avator
            (Toy.scripted (Toy.greedy None (Some 1%Z)) 0 []) Toy.letters
            default_config false 5%nat (Demo.page (Some Demo.greeted) None)
            Demo.greeted);
    [reflexivity|reflexivity|].
  cbn [Decoder.max_new_tokens Decoder.generation_config Toy.scripted
       Toy.greedy].
  lia.
Defined.

Lemma main_leaves_no_button_message_witness :
  button_msg unit
    (state unit (Demo.run_main 10 (Some "hi") 5 5
                   (Demo.page None (Some "buy"))))
  = Some no_button_msg.
Proof.
  exact (main_leaves_no_button_message unit nat Toy.keep Toy.draw tt 10
           "sell" (Some "hi") 5%nat 5%nat (Demo.page None (Some "buy"))
           eq_refl).
Defined.

Lemma main_keeps_dialogue_witness :
  exists msgs',
    messages unit
      (state unit (Demo.run_main 10 (Some "hi") 5 5
                     (Demo.page (Some Demo.greeted) None))) = Some msgs'
    /\ dialogue msgs' = true.
Proof.
  exact (main_keeps_dialogue unit nat Toy.keep Toy.draw tt 10 "sell"
           (Some "hi") 5%nat 5%nat (Demo.page (Some Demo.greeted) None)
           eq_refl eq_refl).
Defined.

Lemma pending_button_message_overrides_typed_witness :
  Demo.run_main 10 (Some "hi") 5 5 (Demo.page (Some Demo.greeted) (Some "buy"))
  = Demo.run_main 10 None 5 5 (Demo.page (Some Demo.greeted) (Some "buy")).
Proof.
  exact (pending_button_message_overrides_typed unit nat Toy.keep Toy.draw tt
           10 "sell" (Some "hi") None 5%nat 5%nat
           (Demo.page (Some Demo.greeted) (Some "buy")) "buy"
           eq_refl eq_refl).
Defined.

Lemma idle_run_shows_history_witness :
  ended unit (Demo.run_main 10 (Some "") 5 5
                (Demo.page (Some Demo.greeted) None)) = Returned
  /\ shown unit (Demo.run_main 10 (Some "") 5 5
                   (Demo.page (Some Demo.greeted) None))
     = show_history Demo.greeted
  /\ messages unit
       (state unit (Demo.run_main 10 (Some "") 5 5
                      (Demo.page (Some Demo.greeted) None)))
     = Some Demo.greeted.
Proof.
  eapply (idle_run_shows_history unit nat Toy.keep Toy.draw tt 10 "sell"
            selling_page (Some "") 5%nat 5%nat
            (Demo.page (Some Demo.greeted) None));
    try reflexivity.
  now left.
Defined.

Lemma add_to_cart_is_answered_like_typed_witness :
  on_btn_click unit (Some (nth 3 want_to_buy_list ""))
    (Demo.page (Some Demo.greeted) None)
  = (set_button_msg unit (Demo.page (Some Demo.greeted) None)
       (Some (nth 3 want_to_buy_list "")), Returned)
  /\ Demo.run_main 10 None 5 5
       (set_button_msg unit (Demo.page (Some Demo.greeted) None)
          (Some (nth 3 want_to_buy_list "")))
     = Demo.run_main 10 (Some (nth 3 want_to_buy_list "")) 5 5
         (set_button_msg unit (Demo.page (Some Demo.greeted) None)
            (Some no_button_msg)).
Proof.
  eapply (add_to_cart_is_answered_like_typed unit nat Toy.keep Toy.draw tt
            10 "sell" (nth 3 want_to_buy_list "") selling_page None
            5%nat 5%nat (Demo.page (Some Demo.greeted) None));
    try reflexivity.
  cbn. tauto.
Defined.

Lemma cleared_history_gets_introduction_witness :
  exists intro,
    messages unit
      (state unit (Demo.run_main 10 None 5 5
                     (set_messages unit (Demo.page (Some Demo.greeted) None)
                        None)))
    = Some [entry "robot" intro robot_avator].
Proof.
  destruct (cleared_history_gets_introduction unit nat Toy.keep Toy.draw tt
              10 "sell" None 5%nat 5%nat
              (Demo.page (Some Demo.greeted) None) Demo.greeted
              eq_refl (or_introl eq_refl) eq_refl) as [_ H].
  exact (H eq_refl).
Defined.

End PageRuns.
